(** * zeit-go: a shallow embedding of the Zeit value type, its Duration
      views and its billing cycles, with the properties of the
      specification settled against it.

    Layout
    - [Int64]   : Go's 64-bit [int]/[int64] with wrap-around.
    - [Float64] : IEEE 754 binary64 as [spec_float], for [Duration.Hours]
                  and for the [float64] branch of [Scan].
    - [GoTime]  : the part of package [time] the repository calls.
    - [zeit]    : zeit.go, duration.go and billing.go.
    - [Spec]    : the vocabulary of the statements.
    - [ModelTests] : the repository's own tests, run on the model.
    - [Int64Facts], [CalendarFacts], [ZeitFacts] : the proofs of the
                  statements of the specification.
    - [MonthFacts] : the calendar month by month, zones of constant
                  offset, and the days a billing interval adds.
    - [ZeitProperties] : further properties of the package: moving an
                  instant, billing cycles, the calendar helpers, the
                  views of a Duration, and the stored instant. *)

From Stdlib Require Import ZArith List Bool Lia String.
From Stdlib Require Import Floats.SpecFloat.
Import ListNotations.
Open Scope Z_scope.

(* ================================================================= *)
(** ** Go's [int] and [int64] *)

Module Int64.

Definition min_int : Z := - 2 ^ 63.
Definition max_int : Z := 2 ^ 63 - 1.

Definition in_range (x : Z) : Prop := min_int <= x <= max_int.

(** Two's-complement wrap-around of a mathematical integer. *)
Definition wrap (x : Z) : Z := (x + 2 ^ 63) mod 2 ^ 64 - 2 ^ 63.

Definition add (x y : Z) : Z := wrap (x + y).
Definition sub (x y : Z) : Z := wrap (x - y).
Definition neg (x : Z) : Z := wrap (- x).

End Int64.

(* ================================================================= *)
(** ** [float64] *)

Module Float64.

Definition prec : Z := 53.
Definition emax : Z := 1024.

Definition float64 : Type := spec_float.

(** Conversion [float64(n)] of an integer: round to nearest, ties to even. *)
Definition of_int (n : Z) : float64 := binary_normalize prec emax n 0 false.

Definition add : float64 -> float64 -> float64 := SFadd prec emax.
Definition div : float64 -> float64 -> float64 := SFdiv prec emax.

(** The integer part of a finite float, truncated toward zero. *)
Definition trunc (v : float64) : option Z :=
  match v with
  | S754_zero _ => Some 0
  | S754_finite s m e =>
      let mag := match e with
                 | Zneg p => Z.shiftr (Zpos m) (Zpos p)
                 | _ => Z.shiftl (Zpos m) e
                 end in
      Some (if s then - mag else mag)
  | S754_infinity _ | S754_nan => None
  end.

(** Conversion [int64(v)].  The Go specification fixes the result
    (truncation toward zero) when the truncated value fits the target
    type and leaves it implementation-dependent otherwise; [indef] is
    the value the platform returns in that case. *)
Definition to_int64 (indef : Z) (v : float64) : Z :=
  match trunc v with
  | Some n => if (Int64.min_int <=? n) && (n <=? Int64.max_int) then n else indef
  | None => indef
  end.

End Float64.

(* ================================================================= *)
(** ** Package [time]

    The repository is a thin layer over Go's [time] package.  This module
    models the functions it calls, after their documentation and the
    classic implementation (Go 1.22, the version the module file asks
    for).

    A [Time] holds the seconds elapsed since January 1 of year 1,
    00:00:00 UTC ([ext]), the nanoseconds within the second and a
    location.  Go keeps the seconds in an [int64]; the model keeps them in
    [Z] and wraps where Go converts from and to Unix seconds ([Unix],
    [Time_Unix]).  Calendar arithmetic is exact in [Z]: it agrees with Go
    wherever Go's own arithmetic does not overflow (years within about
    292 billion of year 1).  Go counts days from an "absolute" epoch in
    year -292277022399; that epoch lies a whole number of 400-year cycles
    (and so of weeks) before year 1, which lets the model count from
    year 1 with the same cycle arithmetic. *)

Module GoTime.

(** *** Locations *)

(** A [*time.Location]: its name and the offset, in seconds east of
    UTC, in force at a given Unix second. *)
Record Location := mkLocation { zname : string; zoffset : Z -> Z }.

Definition UTC : Location := mkLocation "UTC" (fun _ => 0).

Definition FixedZone (name : string) (offset : Z) : Location :=
  mkLocation name (fun _ => offset).

(** *** Durations: a count of nanoseconds in an [int64] *)

Definition Duration : Type := Z.

Definition Nanosecond : Duration := 1.
Definition Second : Duration := 1000000000.
Definition Minute : Duration := 60 * Second.
Definition Hour : Duration := 60 * Minute.

Definition minDuration : Duration := Int64.min_int.
Definition maxDuration : Duration := Int64.max_int.

(** [d.Hours()]: float64(d / Hour) + float64(d % Hour) / (60*60*1e9). *)
Definition Hours (d : Duration) : Float64.float64 :=
  Float64.add (Float64.of_int (Z.quot d Hour))
              (Float64.div (Float64.of_int (Z.rem d Hour))
                           (Float64.of_int 3600000000000)).

(** *** Times *)

Record Time := mkTime { ext : Z; nsec : Z; tloc : Location }.

Definition unixToInternal : Z := 62135596800.
Definition internalToUnix : Z := - unixToInternal.

Definition secondsPerMinute : Z := 60.
Definition secondsPerHour : Z := 3600.
Definition secondsPerDay : Z := 86400.
Definition secondsPerWeek : Z := 604800.
Definition daysPer400Years : Z := 146097.
Definition daysPer100Years : Z := 36524.
Definition daysPer4Years : Z := 1461.

Section WithLocal.

(** [time.Local], the zone of the running process. *)
Variable Local : Location.

Definition unixTime (sec nsec : Z) : Time :=
  mkTime (Int64.add sec unixToInternal) nsec Local.

(** [time.Unix(sec, nsec)] *)
Definition Unix (sec nsec : Z) : Time :=
  if (nsec <? 0) || (1000000000 <=? nsec) then
    let n := Z.quot nsec 1000000000 in
    let sec := Int64.add sec n in
    let nsec := nsec - n * 1000000000 in
    if nsec <? 0 then unixTime (Int64.sub sec 1) (nsec + 1000000000)
    else unixTime sec nsec
  else unixTime sec nsec.

End WithLocal.

(** [t.Unix()] *)
Definition Time_Unix (t : Time) : Z := Int64.add (ext t) internalToUnix.

(** [t.UTC()] *)
Definition Time_UTC (t : Time) : Time := mkTime (ext t) (nsec t) UTC.

(** [t.In(loc)] *)
Definition Time_In (t : Time) (l : Location) : Time := mkTime (ext t) (nsec t) l.

(** [t.Location()] *)
Definition Time_Location (t : Time) : Location := tloc t.

Definition Time_Equal (t u : Time) : bool :=
  (ext t =? ext u) && (nsec t =? nsec u).

Definition Time_Before (t u : Time) : bool :=
  (ext t <? ext u) || ((ext t =? ext u) && (nsec t <? nsec u)).

Definition Time_After (t u : Time) : bool :=
  (ext u <? ext t) || ((ext t =? ext u) && (nsec u <? nsec t)).

(** [t.Add(d)] *)
Definition Time_Add (t : Time) (d : Duration) : Time :=
  let dsec := Z.quot d 1000000000 in
  let ns := nsec t + Z.rem d 1000000000 in
  if 1000000000 <=? ns then mkTime (ext t + (dsec + 1)) (ns - 1000000000) (tloc t)
  else if ns <? 0 then mkTime (ext t + (dsec - 1)) (ns + 1000000000) (tloc t)
  else mkTime (ext t + dsec) ns (tloc t).

(** [t.Sub(u)]: the difference as a [Duration], saturated when it does
    not fit one. *)
Definition Time_Sub (t u : Time) : Duration :=
  let d := Int64.wrap ((ext t - ext u) * Second + (nsec t - nsec u)) in
  if Time_Equal (Time_Add u d) t then d
  else if Time_Before t u then minDuration
  else maxDuration.

(** *** The calendar *)

Definition isLeap (year : Z) : bool :=
  (year mod 4 =? 0) && (negb (year mod 100 =? 0) || (year mod 400 =? 0)).

(** [daysBefore[m]]: days in a non-leap year before month [m+1]. *)
Definition daysBefore (m : Z) : Z :=
  nth (Z.to_nat m) [0; 31; 59; 90; 120; 151; 181; 212; 243; 273; 304; 334; 365] 0.

(** [norm(hi, lo, base)]: carry [lo] into [hi] so that [0 <= lo < base]. *)
Definition norm (hi lo base : Z) : Z * Z :=
  let '(hi, lo) :=
    if lo <? 0 then
      let n := Z.quot (- lo - 1) base + 1 in (hi - n, lo + n * base)
    else (hi, lo) in
  if base <=? lo then
    let n := Z.quot lo base in (hi + n, lo - n * base)
  else (hi, lo).

(** Days from January 1 of year 1 to January 1 of [year]. *)
Definition daysSinceEpoch (year : Z) : Z :=
  let y := year - 1 in
  let n400 := y / 400 in
  let y := y - 400 * n400 in
  let n100 := y / 100 in
  let y := y - 100 * n100 in
  let n4 := y / 4 in
  let y := y - 4 * n4 in
  daysPer400Years * n400 + daysPer100Years * n100 + daysPer4Years * n4 + 365 * y.

(** Year within a 400-year cycle and day within that year, for a day
    [d] of the cycle. *)
Definition cycleYear (d : Z) : Z * Z :=
  let n := d / daysPer100Years in
  let n := n - Z.shiftr n 2 in
  let y := 100 * n in
  let d := d - daysPer100Years * n in
  let n := d / daysPer4Years in
  let y := y + 4 * n in
  let d := d - daysPer4Years * n in
  let n := d / 365 in
  let n := n - Z.shiftr n 2 in
  (y + n, d - 365 * n).

(** Month and day of the month for a zero-based day of the year. *)
Definition yearDay (leap : bool) (yday : Z) : Z * Z :=
  if leap && (yday =? 31 + 29 - 1) then (2, 29)
  else
    let day := if leap && (31 + 29 - 1 <? yday) then yday - 1 else yday in
    let month := Z.quot day 31 in
    let e := daysBefore (month + 1) in
    if e <=? day then (month + 2, day - e + 1)
    else (month + 1, day - daysBefore month + 1).

(** [absDate]: the civil date of a day counted from January 1, year 1. *)
Definition absDate (days : Z) : Z * Z * Z :=
  let n := days / daysPer400Years in
  let d := days - daysPer400Years * n in
  let '(y, yday) := cycleYear d in
  let year := 400 * n + y + 1 in
  let '(month, day) := yearDay (isLeap year) yday in
  (year, month, day).

(** Seconds since the epoch on the wall clock of [t]'s location. *)
Definition abs (t : Time) : Z := ext t + zoffset (tloc t) (Time_Unix t).

(** [t.Date()] *)
Definition Time_Date (t : Time) : Z * Z * Z := absDate (abs t / secondsPerDay).

Definition Time_Year (t : Time) : Z := fst (fst (Time_Date t)).
Definition Time_Month (t : Time) : Z := snd (fst (Time_Date t)).
Definition Time_Day (t : Time) : Z := snd (Time_Date t).

(** [t.Clock()] *)
Definition Time_Clock (t : Time) : Z * Z * Z :=
  let sec := abs t mod secondsPerDay in
  let hour := sec / secondsPerHour in
  let sec := sec - hour * secondsPerHour in
  let min := sec / secondsPerMinute in
  (hour, min, sec - min * secondsPerMinute).

(** Days of the week, numbered as in Go. *)
Definition Sunday : Z := 0.
Definition Monday : Z := 1.
Definition Tuesday : Z := 2.
Definition Wednesday : Z := 3.
Definition Thursday : Z := 4.
Definition Friday : Z := 5.
Definition Saturday : Z := 6.

(** [t.Weekday()]: the epoch day is a Monday. *)
Definition Time_Weekday (t : Time) : Z :=
  ((abs t + Monday * secondsPerDay) mod secondsPerWeek) / secondsPerDay.

(** [time.Date(year, month, day, hour, min, sec, nsec, loc)] *)
Definition Date (year month day hour min sec ns : Z) (l : Location) : Time :=
  let '(year, m) := norm year (month - 1) 12 in
  let month := m + 1 in
  let '(sec, ns) := norm sec ns 1000000000 in
  let '(min, sec) := norm min sec 60 in
  let '(hour, min) := norm hour min 60 in
  let '(day, hour) := norm day hour 24 in
  let d := daysSinceEpoch year + daysBefore (month - 1)
           + (if isLeap year && (3 <=? month) then 1 else 0)
           + (day - 1) in
  let a := d * secondsPerDay
           + (hour * secondsPerHour + min * secondsPerMinute + sec) in
  let unix := a + internalToUnix in
  let offset := zoffset l unix in
  let unix :=
    if offset =? 0 then unix
    else unix - zoffset l (unix - offset) in
  mkTime (unix + unixToInternal) ns l.

(** [t.AddDate(years, months, days)] *)
Definition Time_AddDate (t : Time) (years months days : Z) : Time :=
  let '(year, month, day) := Time_Date t in
  let '(hour, min, sec) := Time_Clock t in
  Date (year + years) (month + months) (day + days) hour min sec (nsec t)
       (Time_Location t).

End GoTime.

(* ================================================================= *)
(** ** Package [zeit] *)

Module zeit.

Import GoTime.

(** Go's [any], as [Scan] sees it: nil, the two dynamic types it
    accepts, the other types a database driver delivers, and a value of
    any further type, known by the name [%T] prints. *)
Inductive any :=
| nil_value
| int64_value (v : Z)
| float64_value (v : Float64.float64)
| bool_value (v : bool)
| string_value (v : string)
| bytes_value (v : list Z)
| time_value (v : Time)
| other_value (type_name : string).

Definition type_name (src : any) : string :=
  match src with
  | nil_value => "<nil>"
  | int64_value _ => "int64"
  | float64_value _ => "float64"
  | bool_value _ => "bool"
  | string_value _ => "string"
  | bytes_value _ => "[]uint8"
  | time_value _ => "time.Time"
  | other_value n => n
  end.

(** *** zeit.go *)

(** A [*time.Location] field or argument may be nil: [None]. *)
Record Zeit := mkZeit { instant : Time; location : option Location }.

Definition New (t : Time) (loc : option Location) : Zeit :=
  let loc := match loc with None => Some UTC | Some _ => loc end in
  mkZeit (Time_UTC t) loc.

Definition ToDatabase (z : Zeit) : Z := Time_Unix (instant z).

Definition Add (z : Zeit) (d : GoTime.Duration) : Zeit :=
  New (Time_Add (instant z) d) (location z).

Definition AddDays (z : Zeit) (days : Z) : Zeit :=
  New (Time_AddDate (instant z) 0 0 days) (location z).

(** The loop of [AddBusinessDays], [for i := 0; i < days; { ... }], run
    for at most [fuel] iterations: [None] when the fuel runs out before
    the loop condition fails. *)
Fixpoint AddBusinessDays_loop (fuel : nat) (direction days i : Z)
         (current : Time) : option Time :=
  if i <? days then
    match fuel with
    | O => None
    | S fuel =>
        let current := Time_AddDate current 0 0 direction in
        let weekday := Time_Weekday current in
        if negb (weekday =? Saturday) && negb (weekday =? Sunday)
        then AddBusinessDays_loop fuel direction days (i + 1) current
        else AddBusinessDays_loop fuel direction days i current
    end
  else Some current.

Definition AddBusinessDays_fuel (fuel : nat) (z : Zeit) (days : Z) : option Zeit :=
  let current := instant z in
  let '(direction, days) :=
    if days <? 0 then (-1, Int64.neg days) else (1, days) in
  match AddBusinessDays_loop fuel direction days 0 current with
  | Some current => Some (New current (location z))
  | None => None
  end.

(** Three iterations for each business day are enough (see
    [AddBusinessDays_total]): a step that is not counted lands on a
    Saturday or a Sunday, and at most two of them come in a row. *)
Definition AddBusinessDays (z : Zeit) (days : Z) : option Zeit :=
  AddBusinessDays_fuel (Z.to_nat (3 * Z.abs days)) z days.

Definition Before (z other : Zeit) : bool := Time_Before (instant z) (instant other).
Definition After (z other : Zeit) : bool := Time_After (instant z) (instant other).
Definition Equal (z other : Zeit) : bool := Time_Equal (instant z) (instant other).

Definition In (z : Zeit) (loc : option Location) : Zeit :=
  let loc := match loc with None => Some UTC | Some _ => loc end in
  mkZeit (instant z) loc.

(** [Value]: the Unix second as a driver value, and a nil error. *)
Definition Value (z : Zeit) : any * option string :=
  (int64_value (Time_Unix (instant z)), None).



Definition StartOfMonth (z : Zeit) : option Zeit :=
  match location z with
  | None => None
  | Some loc =>
      let t := Time_In (instant z) loc in
      Some (New (Date (Time_Year t) (Time_Month t) 1 0 0 0 0 loc) (location z))
  end.

Definition EndOfMonth (z : Zeit) : option Zeit :=
  match location z with
  | None => None
  | Some loc =>
      let t := Time_In (instant z) loc in
      let lastDay :=
        Time_Day (Date (Time_Year t) (Time_Month t + 1) 0 0 0 0 0 loc) in
      Some (New (Date (Time_Year t) (Time_Month t) lastDay 23 59 59 0 loc)
                (location z))
  end.

Section Platform.

(** What the platform fixes: the local zone [time.Unix] stamps on its
    result, and the result of converting to an integer a float that
    has no integer in range. *)
Variable Local : Location.
Variable float_indef : Z.

Definition FromDatabase (timestamp : Z) (loc : option Location) : Zeit :=
  let loc := match loc with None => Some UTC | Some _ => loc end in
  New (Unix Local timestamp 0) loc.

(** [Scan] assigns to the fields of its receiver: the result pairs the
    receiver after the call with the error returned ([None] for nil). *)
Definition Scan (z : Zeit) (src : any) : Zeit * option string :=
  match src with
  | int64_value v =>
      let z := mkZeit (Time_UTC (Unix Local v 0)) (location z) in
      let z := mkZeit (instant z) (Some UTC) in
      (z, None)
  | float64_value v =>
      let z := mkZeit (Time_UTC (Unix Local (Float64.to_int64 float_indef v) 0))
                      (location z) in
      let z := mkZeit (instant z) (Some UTC) in
      (z, None)
  | nil_value => (z, Some "zeit: cannot scan nil value"%string)
  | _ => (z, Some ("zeit: cannot scan " ++ type_name src ++ " into Zeit")%string)
  end.

End Platform.

(** *** duration.go *)

(** The statement [for i := range n { ... }] over a loop state [A]: the
    body runs with [i] at each of the [n] values from the first on. *)
Fixpoint for_range {A : Type} (n : nat) (i : Z) (body : Z -> A -> A) (acc : A) : A :=
  match n with
  | O => acc
  | S n => for_range n (i + 1) body (body i acc)
  end.

Record Duration := mkDuration { start : Zeit; end_ : Zeit }.

Definition NewDuration (start end_ : Zeit) : Duration := mkDuration start end_.
Definition Until (z other : Zeit) : Duration := mkDuration z other.

(** [raw]: the absolute duration between start and end. *)
Definition raw (d : Duration) : GoTime.Duration :=
  let diff := Time_Sub (instant (end_ d)) (instant (start d)) in
  if diff <? 0 then Int64.neg diff else diff.

Definition Raw (d : Duration) : GoTime.Duration := raw d.

(** [ordered]: start and end as times with start <= end. *)
Definition ordered (d : Duration) : Time * Time :=
  let s := instant (start d) in
  let e := instant (end_ d) in
  if Time_After s e then (e, s) else (s, e).

Definition Months (d : Duration) : Z :=
  let '(start, end_) := ordered d in
  let years := Time_Year end_ - Time_Year start in
  let months := Time_Month end_ - Time_Month start in
  let total := years * 12 + months in
  let total := if Time_Day end_ <? Time_Day start then total - 1 else total in
  if total <? 0 then 0 else total.

Section PlatformFloat.

Variable float_indef : Z.

Definition Days (d : Duration) : Z :=
  Float64.to_int64 float_indef (Float64.div (Hours (raw d)) (Float64.of_int 24)).

Definition BusinessDays (d : Duration) : Z :=
  let '(start, end_) := ordered d in
  let startDate :=
    Date (Time_Year start) (Time_Month start) (Time_Day start) 0 0 0 0 UTC in
  let endDate :=
    Date (Time_Year end_) (Time_Month end_) (Time_Day end_) 0 0 0 0 UTC in
  if negb (Time_Before startDate endDate) then 0
  else
    let totalDays :=
      Float64.to_int64 float_indef
        (Float64.div (Hours (Time_Sub endDate startDate)) (Float64.of_int 24)) in
    let fullWeeks := Z.quot totalDays 7 in
    let remaining := Z.rem totalDays 7 in
    let count := fullWeeks * 5 in
    for_range (Z.to_nat remaining) 0
      (fun i count =>
         let day := Time_Weekday (Time_AddDate startDate 0 0 (fullWeeks * 7 + i)) in
         if negb (day =? Saturday) && negb (day =? Sunday) then count + 1
         else count)
      count.

End PlatformFloat.

(** *** billing.go *)

Definition BillingInterval : Type := Z.

Definition Daily : BillingInterval := 0.
Definition Weekly : BillingInterval := 1.
Definition Monthly : BillingInterval := 2.
Definition Quarterly : BillingInterval := 3.
Definition Yearly : BillingInterval := 4.

Record Period := mkPeriod { StartsAt : Zeit; EndsAt : Zeit }.

(** The [switch interval] of [Cycles]: the end of the period that
    starts at [current]. *)
Definition Cycles_next (interval : BillingInterval) (current : Zeit) : Zeit :=
  if interval =? Daily then AddDays current 1
  else if interval =? Weekly then AddDays current 7
  else if interval =? Monthly then
    New (Time_AddDate (instant current) 0 1 0) (location current)
  else if interval =? Quarterly then
    New (Time_AddDate (instant current) 0 3 0) (location current)
  else if interval =? Yearly then
    New (Time_AddDate (instant current) 1 0 0) (location current)
  else AddDays current 1.

(** The loop [for i := range count] of [Cycles]; the periods come in the
    order of their index. *)
Fixpoint Cycles_loop (n : nat) (interval : BillingInterval) (current : Zeit)
  : list Period :=
  match n with
  | O => []
  | S n =>
      let next := Cycles_next interval current in
      mkPeriod current next :: Cycles_loop n interval next
  end.

Definition Cycles (z : Zeit) (count : Z) (interval : BillingInterval) : list Period :=
  if count <=? 0 then []
  else Cycles_loop (Z.to_nat count) interval z.

Definition Period_Duration (p : Period) : GoTime.Duration :=
  Time_Sub (instant (EndsAt p)) (instant (StartsAt p)).

Definition Contains (p : Period) (z : Zeit) : bool :=
  negb (Before z (StartsAt p)) && Before z (EndsAt p).

End zeit.

(* ================================================================= *)
(** ** Vocabulary of the properties

    The notions the statements below are written with: what the
    specification says a result should be, and the invariants the
    package keeps. *)

Module Spec.

Import GoTime zeit.

(** The day number [Date] computes for a civil date whose fields need
    no carrying. *)
Definition civilDays (year month day : Z) : Z :=
  daysSinceEpoch year + daysBefore (month - 1)
  + (if isLeap year && (3 <=? month) then 1 else 0)
  + (day - 1).

(** [all_from n i p]: [p] holds of the [n] integers from [i] upward. *)
Fixpoint all_from (n : nat) (i : Z) (p : Z -> bool) : bool :=
  match n with
  | O => true
  | S n => p i && all_from n (i + 1) p
  end.

(** One day of a 400-year cycle: [absDate] yields a date of the
    calendar, and [civilDays] takes it back to the day. *)
Definition cycle_day_ok (r : Z) : bool :=
  let '(y, m, d) := absDate r in
  (civilDays y m d =? r) && (1 <=? m) && (m <=? 12) && (1 <=? d) && (d <=? 31).

(** A time of the kind a [Zeit] stores: located in UTC, with its
    nanoseconds within the second. *)
Definition utc_time (t : Time) : Prop :=
  tloc t = UTC /\ 0 <= nsec t < 1000000000.

(** Nanoseconds since the epoch: the position of a time on the time
    line, whatever its location. *)
Definition nanos (t : Time) : Z := ext t * 1000000000 + nsec t.

(** Go keeps the nanoseconds of a [time.Time] within the second. *)
Definition valid_time (t : Time) : Prop := 0 <= nsec t < 1000000000.

(** What every constructor of the package establishes: the instant is
    a valid time located in UTC. *)
Definition stored (z : Zeit) : Prop := utc_time (instant z).

(** A float that converts to an integer without loss: it is finite, its
    integer part fits an [int64], and converting that integer back
    gives the same float. *)
Definition lossless (v : Float64.float64) : bool :=
  match Float64.trunc v with
  | Some n =>
      (Int64.min_int <=? n) && (n <=? Int64.max_int)
      && SFeqb (Float64.of_int n) v
  | None => false
  end.

(** The inputs the specification lets [Scan] accept. *)
Definition Scan_accepts_spec (src : any) : bool :=
  match src with
  | int64_value _ => true
  | float64_value v => lossless v
  | _ => false
  end.

(** The float 1.5. *)
Definition one_and_a_half : Float64.float64 :=
  Float64.div (Float64.of_int 3) (Float64.of_int 2).

(** The earlier and the later of two times, as the specification
    orders a span: the first argument unless the second is before it. *)
Definition earlier (a b : Time) : Time := if Time_Before b a then b else a.
Definition later (a b : Time) : Time := if Time_Before b a then a else b.

(** The whole months of a span, in the words of the specification. *)
Definition Months_spec (d : Duration) : Z :=
  let s := earlier (instant (start d)) (instant (end_ d)) in
  let e := later (instant (start d)) (instant (end_ d)) in
  Z.max 0 (12 * (Time_Year e - Time_Year s)
           + (Time_Month e - Time_Month s)
           - (if Time_Day e <? Time_Day s then 1 else 0)).

(** Monday to Friday. *)
Definition is_business_day (t : Time) : bool :=
  let weekday := Time_Weekday t in
  negb (weekday =? Saturday) && negb (weekday =? Sunday).

(** A UTC time moved by [x] days of 86400 seconds. *)
Definition shift (t : Time) (x : Z) : Time :=
  mkTime (ext t + secondsPerDay * x) (nsec t) UTC.

(** How many weekend days the walk has just crossed when it stands on
    [t]: none on a business day, one on the first day of a weekend in
    the direction of the walk, two on the second. *)
Definition gap (direction : Z) (t : Time) : Z :=
  let w := Time_Weekday t in
  if direction =? 1 then
    if w =? Saturday then 1 else if w =? Sunday then 2 else 0
  else
    if w =? Sunday then 1 else if w =? Saturday then 2 else 0.

(** The business days among the [k] days that follow [z] in the
    direction of the walk, one calendar day at a time. *)
Fixpoint business_steps (z : Zeit) (direction : Z) (k : nat) : Z :=
  match k with
  | O => 0
  | S k =>
      let next := AddDays z direction in
      (if is_business_day (instant next) then 1 else 0)
      + business_steps next direction k
  end.

(** The same count on the instants themselves. *)
Fixpoint business_steps_from (t : Time) (direction : Z) (k : nat) : Z :=
  match k with
  | O => 0
  | S k =>
      (if is_business_day (shift t direction) then 1 else 0)
      + business_steps_from (shift t direction) direction k
  end.

(** The business days among the [n] dates that start [i] days after the
    date of [t]. *)
Fixpoint count_business_days (t : Time) (i : Z) (n : nat) : Z :=
  match n with
  | O => 0
  | S n =>
      (if is_business_day (shift t i) then 1 else 0)
      + count_business_days t (i + 1) n
  end.

(** Midnight UTC of the date of a UTC time. *)
Definition midnight (t : Time) : Time :=
  mkTime (secondsPerDay * (ext t / secondsPerDay)) 0 UTC.

(** The number of dates from the date of [s] up to, and without, the
    date of [e]. *)
Definition dates_between (s e : Time) : Z :=
  ext e / secondsPerDay - ext s / secondsPerDay.

(** The business days of a span, in the words of the specification: the
    Monday-to-Friday dates of the half-open interval from the UTC date
    of the earlier instant to the UTC date of the later one. *)
Definition BusinessDays_spec (d : Duration) : Z :=
  let s := earlier (instant (start d)) (instant (end_ d)) in
  let e := later (instant (start d)) (instant (end_ d)) in
  count_business_days (midnight s) 0 (Z.to_nat (dates_between s e)).



(** A Zeit at a UTC wall-clock time, in the zone UTC. *)
Definition at_utc (year month day hour min sec : Z) : Zeit :=
  New (Date year month day hour min sec 0 UTC) (Some UTC).

(** The span between two dates, both at 10:00:00 UTC. *)
Definition span (s e : Z * Z * Z) : Duration :=
  let '(ys, ms, ds) := s in
  let '(ye, me, de) := e in
  Until (at_utc ys ms ds 10 0 0) (at_utc ye me de 10 0 0).

(** The ends of the periods of a sequence. *)
Definition period_ends (ps : list Period) : list Zeit := map EndsAt ps.

(** The length of a month of the Gregorian calendar. *)
Definition daysIn (year month : Z) : Z :=
  if month =? 2 then (if isLeap year then 29 else 28)
  else if (month =? 4) || (month =? 6) || (month =? 9) || (month =? 11) then 30
  else 31.


(** Months counted from January of year 0, and back. *)
Definition monthIndex (year month : Z) : Z := 12 * year + (month - 1).
Definition yearOf (M : Z) : Z := M / 12.
Definition monthOf (M : Z) : Z := M mod 12 + 1.

(** The day number of the first day of a month. *)
Definition firstDay (M : Z) : Z := civilDays (yearOf M) (monthOf M) 1.

(** One month of a 400-year cycle: the next month starts [daysIn] days
    later, and [absDate] reads each of its days back. *)
Definition cycle_month_ok (M : Z) : bool :=
  (firstDay (M + 1) - firstDay M =? daysIn (yearOf M) (monthOf M))
  && all_from (Z.to_nat (daysIn (yearOf M) (monthOf M))) 1
       (fun d =>
          let '(y, m, d') := absDate (firstDay M + d - 1) in
          (y =? yearOf M) && (m =? monthOf M) && (d' =? d)).

(** A location whose offset from UTC never changes. *)
Definition fixed_offset (l : Location) (offset : Z) : Prop :=
  forall unix, zoffset l unix = offset.

(** The calendar days a billing interval adds to an instant whose UTC
    date lies in the month of index [M]: the days up to the same day of
    the month one, three or twelve months on. *)
Definition interval_days (interval : BillingInterval) (M : Z) : Z :=
  if interval =? Daily then 1
  else if interval =? Weekly then 7
  else if interval =? Monthly then firstDay (M + 1) - firstDay M
  else if interval =? Quarterly then firstDay (M + 3) - firstDay M
  else if interval =? Yearly then firstDay (M + 12) - firstDay M
  else 1.

(** The index of the month of the UTC date of an instant. *)
Definition month_of_time (t : Time) : Z :=
  monthIndex (Time_Year t) (Time_Month t).

(** One month of a 400-year cycle: the lengths of the quarter and of the
    year that start with it. *)
Definition cycle_quarter_ok (M : Z) : bool :=
  (89 <=? firstDay (M + 3) - firstDay M) && (firstDay (M + 3) - firstDay M <=? 92)
  && (365 <=? firstDay (M + 12) - firstDay M)
  && (firstDay (M + 12) - firstDay M <=? 366).

(** A nil location stands for UTC wherever a Zeit is built. *)
Definition zone_or_UTC (loc : option Location) : option Location :=
  match loc with None => Some UTC | Some _ => loc end.



End Spec.

(* ================================================================= *)
(** ** The repository's tests, run on the model

    The expectations of zeit_test.go and duration_test.go that involve
    the functions above, evaluated on the embedding: they check the model
    of package [time] against what the Go tests observe. *)

Module ModelTests.

Import GoTime zeit Spec.

Example TestAddBusinessDays :
  map (fun '(d, n) => AddBusinessDays (at_utc 2024 1 d 10 0 0) n)
      [(15, 1); (19, 1); (19, 3); (15, -1); (17, 5)]
  = map (fun d => Some (at_utc 2024 1 d 10 0 0)) [16; 22; 24; 12; 24].
Proof. vm_compute. reflexivity. Qed.

Example TestDuration_Months :
  map Months
      [span (2024, 1, 1) (2024, 1, 31); span (2024, 1, 15) (2024, 2, 15);
       span (2024, 1, 15) (2024, 2, 14); span (2024, 1, 1) (2024, 4, 1);
       span (2024, 11, 1) (2025, 2, 1); span (2024, 1, 1) (2025, 1, 1);
       span (2024, 6, 1) (2024, 1, 1)]
  = [0; 1; 0; 3; 3; 12; 5].
Proof. vm_compute. reflexivity. Qed.

Example TestDuration_BusinessDays (float_indef : Z) :
  map (BusinessDays float_indef)
      [span (2024, 1, 15) (2024, 1, 19); span (2024, 1, 15) (2024, 1, 22);
       span (2024, 1, 19) (2024, 1, 22);
       Until (at_utc 2024 1 15 10 0 0) (at_utc 2024 1 15 14 0 0);
       span (2024, 1, 20) (2024, 1, 21); span (2024, 1, 15) (2024, 1, 29);
       span (2024, 1, 22) (2024, 1, 15); span (2024, 1, 31) (2024, 2, 5)]
  = [4; 5; 1; 0; 0; 10; 5; 3].
Proof. vm_compute. reflexivity. Qed.

Example TestDuration_Days (float_indef : Z) :
  map (Days float_indef)
      [span (2024, 1, 31) (2024, 2, 5); span (2024, 2, 28) (2024, 3, 1);
       Until (at_utc 2024 1 15 0 0 0) (at_utc 2024 1 15 22 0 0)]
  = [5; 2; 0].
Proof. vm_compute. reflexivity. Qed.

Example TestCycles :
  let z := at_utc 2024 1 15 10 0 0 in
  period_ends (Cycles z 3 Daily)
  = [at_utc 2024 1 16 10 0 0; at_utc 2024 1 17 10 0 0; at_utc 2024 1 18 10 0 0]
  /\ period_ends (Cycles z 2 Weekly)
     = [at_utc 2024 1 22 10 0 0; at_utc 2024 1 29 10 0 0]
  /\ period_ends (Cycles z 3 Monthly)
     = [at_utc 2024 2 15 10 0 0; at_utc 2024 3 15 10 0 0; at_utc 2024 4 15 10 0 0]
  /\ period_ends (Cycles z 2 Quarterly)
     = [at_utc 2024 4 15 10 0 0; at_utc 2024 7 15 10 0 0]
  /\ period_ends (Cycles z 2 Yearly)
     = [at_utc 2025 1 15 10 0 0; at_utc 2026 1 15 10 0 0]
  /\ Cycles z 0 Daily = [] /\ Cycles z (-5) Daily = [].
Proof. vm_compute. repeat split. Qed.

Example TestPeriod_Contains :
  let p := mkPeriod (at_utc 2024 1 15 10 0 0) (at_utc 2024 1 15 14 0 0) in
  map (fun h => Contains p (at_utc 2024 1 15 h 0 0)) [9; 10; 12; 14; 15]
  = [false; true; true; false; false]
  /\ Period_Duration (mkPeriod (at_utc 2024 1 15 10 0 0) (at_utc 2024 1 15 14 30 0))
     = 4 * Hour + 30 * Minute.
Proof. vm_compute. split; reflexivity. Qed.

Example TestScanThenIn (Local : Location) (float_indef : Z) :
  let zero := mkZeit (mkTime 0 0 UTC) None in
  let z := fst (Scan Local float_indef zero (int64_value 1705312800)) in
  let berlin := FixedZone "CET" 3600 in
  z = at_utc 2024 1 15 10 0 0
  /\ ToDatabase z = 1705312800
  /\ Time_Date (Time_In (instant (In z (Some berlin))) berlin) = (2024, 1, 15)
  /\ Time_Clock (Time_In (instant (In z (Some berlin))) berlin) = (11, 0, 0).
Proof. vm_compute. repeat split. Qed.

End ModelTests.

(* ================================================================= *)
(** ** Facts about the integer model *)

Module Int64Facts.

Import Int64.

Lemma wrap_in_range x : in_range x -> wrap x = x.
Proof.
  unfold in_range, wrap, min_int, max_int. intros H.
  rewrite Z.mod_small; lia.
Qed.

Lemma wrap_range x : in_range (wrap x).
Proof.
  unfold in_range, wrap, min_int, max_int.
  pose proof (Z.mod_pos_bound (x + 2 ^ 63) (2 ^ 64) ltac:(lia)). lia.
Qed.

Lemma wrap_add_wrap x y : wrap (wrap x + y) = wrap (x + y).
Proof.
  unfold wrap. f_equal.
  replace ((x + 2 ^ 63) mod 2 ^ 64 - 2 ^ 63 + y + 2 ^ 63)
    with ((x + 2 ^ 63) mod 2 ^ 64 + y) by lia.
  rewrite Zplus_mod_idemp_l. f_equal. lia.
Qed.

Lemma neg_in_range x : min_int < x <= max_int -> neg x = - x.
Proof.
  intros H. unfold neg. apply wrap_in_range.
  unfold in_range, min_int, max_int in *. lia.
Qed.

Lemma neg_min_int : neg min_int = min_int.
Proof. reflexivity. Qed.

End Int64Facts.

(* ================================================================= *)
(** ** Facts about the calendar *)

Module CalendarFacts.

Import GoTime Spec.

Lemma all_from_spec n : forall i p,
    all_from n i p = true ->
    forall j, i <= j < i + Z.of_nat n -> p j = true.
Proof.
  induction n as [|n IH]; intros i p H j Hj.
  - simpl in Hj. lia.
  - cbn [all_from] in H. apply andb_true_iff in H as [Hi Hn].
    destruct (Z.eq_dec j i) as [->|Hne]; [exact Hi|].
    apply (IH (i + 1) p Hn). lia.
Qed.

Lemma cycle_days_ok : all_from (Z.to_nat daysPer400Years) 0 cycle_day_ok = true.
Proof. vm_cast_no_check (eq_refl true). Qed.

Lemma isLeap_shift y q : isLeap (y + 400 * q) = isLeap y.
Proof.
  unfold isLeap.
  replace ((y + 400 * q) mod 4) with (y mod 4)
    by (replace (y + 400 * q) with (y + (100 * q) * 4) by lia;
        now rewrite Z_mod_plus_full).
  replace ((y + 400 * q) mod 100) with (y mod 100)
    by (replace (y + 400 * q) with (y + (4 * q) * 100) by lia;
        now rewrite Z_mod_plus_full).
  replace ((y + 400 * q) mod 400) with (y mod 400)
    by (replace (y + 400 * q) with (y + q * 400) by lia;
        now rewrite Z_mod_plus_full).
  reflexivity.
Qed.

Lemma daysSinceEpoch_shift y q :
  daysSinceEpoch (y + 400 * q) = daysSinceEpoch y + daysPer400Years * q.
Proof.
  unfold daysSinceEpoch.
  replace (y + 400 * q - 1) with ((y - 1) + q * 400) by lia.
  rewrite Z_div_plus_full by lia.
  replace (y - 1 + q * 400 - 400 * ((y - 1) / 400 + q))
    with (y - 1 - 400 * ((y - 1) / 400)) by lia.
  cbv zeta. lia.
Qed.

Lemma civilDays_shift y m d q :
  civilDays (y + 400 * q) m d = civilDays y m d + daysPer400Years * q.
Proof.
  unfold civilDays. rewrite isLeap_shift, daysSinceEpoch_shift. lia.
Qed.

Lemma absDate_shift r q :
  absDate (r + daysPer400Years * q)
  = let '(y, m, d) := absDate r in (y + 400 * q, m, d).
Proof.
  unfold absDate.
  replace (r + daysPer400Years * q) with (r + q * daysPer400Years) by lia.
  rewrite Z_div_plus_full by (unfold daysPer400Years; lia).
  replace (r + q * daysPer400Years - daysPer400Years * (r / daysPer400Years + q))
    with (r - daysPer400Years * (r / daysPer400Years)) by lia.
  destruct (cycleYear (r - daysPer400Years * (r / daysPer400Years))) as [y yday].
  replace (400 * (r / daysPer400Years + q) + y + 1)
    with (400 * (r / daysPer400Years) + y + 1 + 400 * q) by lia.
  rewrite isLeap_shift.
  destruct (yearDay _ yday) as [m d]. reflexivity.
Qed.

(** [absDate] yields a calendar date, and [civilDays] is its inverse. *)
Lemma absDate_civilDays days :
  let '(y, m, d) := absDate days in
  civilDays y m d = days /\ 1 <= m <= 12 /\ 1 <= d <= 31.
Proof.
  pose proof (Z.div_mod days daysPer400Years ltac:(unfold daysPer400Years; lia)) as E.
  pose proof (Z.mod_pos_bound days daysPer400Years ltac:(unfold daysPer400Years; lia)) as B.
  set (r := days mod daysPer400Years) in *.
  set (q := days / daysPer400Years) in *.
  replace days with (r + daysPer400Years * q) by lia.
  rewrite absDate_shift.
  pose proof (all_from_spec _ _ _ cycle_days_ok r) as H.
  rewrite Z2Nat.id in H by (unfold daysPer400Years; lia).
  specialize (H ltac:(lia)). unfold cycle_day_ok in H.
  destruct (absDate r) as [[y m] d].
  rewrite civilDays_shift.
  repeat (apply andb_true_iff in H; destruct H as [H ?]).
  apply Z.eqb_eq in H. lia.
Qed.

Lemma norm_id hi lo base : 0 <= lo < base -> norm hi lo base = (hi, lo).
Proof.
  intros H. unfold norm.
  destruct (lo <? 0) eqn:E1; [apply Z.ltb_lt in E1; lia|].
  destruct (base <=? lo) eqn:E2; [apply Z.leb_le in E2; lia|].
  reflexivity.
Qed.

Lemma abs_utc t : tloc t = UTC -> abs t = ext t.
Proof. intros H. unfold abs. rewrite H. simpl. lia. Qed.

Lemma Date_utc y m d h mi s ns :
  1 <= m <= 12 -> 0 <= h < 24 -> 0 <= mi < 60 -> 0 <= s < 60 ->
  0 <= ns < 1000000000 ->
  Date y m d h mi s ns UTC
  = mkTime (civilDays y m d * secondsPerDay
            + (h * secondsPerHour + mi * secondsPerMinute + s)) ns UTC.
Proof.
  intros Hm Hh Hmi Hs Hns. unfold Date.
  rewrite (norm_id y (m - 1) 12) by lia.
  rewrite (norm_id s ns) by lia.
  rewrite (norm_id mi s) by lia.
  rewrite (norm_id h mi) by lia.
  rewrite (norm_id d h) by lia.
  replace (m - 1 + 1) with m by lia.
  cbn [zoffset UTC]. rewrite Z.eqb_refl.
  unfold civilDays, internalToUnix. f_equal. lia.
Qed.

Lemma Clock_range a :
  let sec := a mod secondsPerDay in
  let hour := sec / secondsPerHour in
  let sec' := sec - hour * secondsPerHour in
  let min := sec' / secondsPerMinute in
  0 <= hour < 24 /\ 0 <= min < 60 /\ 0 <= sec' - min * secondsPerMinute < 60
  /\ hour * secondsPerHour + min * secondsPerMinute + (sec' - min * secondsPerMinute)
     = a mod secondsPerDay.
Proof.
  unfold secondsPerDay, secondsPerHour, secondsPerMinute. cbv zeta.
  pose proof (Z.mod_pos_bound a 86400 ltac:(lia)) as B.
  set (s := a mod 86400) in *.
  pose proof (Z.div_mod s 3600 ltac:(lia)) as E1.
  pose proof (Z.mod_pos_bound s 3600 ltac:(lia)) as B1.
  set (h := s / 3600) in *.
  replace (s - h * 3600) with (s mod 3600) by lia.
  set (s1 := s mod 3600) in *.
  pose proof (Z.div_mod s1 60 ltac:(lia)) as E2.
  pose proof (Z.mod_pos_bound s1 60 ltac:(lia)) as B2.
  set (mi := s1 / 60) in *.
  repeat split; try lia.
Qed.

(** On a UTC time, [AddDate(0, 0, k)] moves the instant by exactly [k]
    days of 86400 seconds. *)
Lemma AddDate_days t k :
  utc_time t ->
  Time_AddDate t 0 0 k = mkTime (ext t + secondsPerDay * k) (nsec t) UTC.
Proof.
  intros [Hl Hn]. unfold Time_AddDate, Time_Date, Time_Clock, Time_Location.
  rewrite (abs_utc t Hl), Hl.
  pose proof (absDate_civilDays (ext t / secondsPerDay)) as R.
  destruct (absDate (ext t / secondsPerDay)) as [[y m] d].
  destruct R as (R & Rm & Rd).
  pose proof (Clock_range (ext t)) as C. cbv zeta in C.
  destruct C as (Ch & Cm & Cs & Ce).
  rewrite !Z.add_0_r, Date_utc by lia.
  f_equal.
  pose proof (Z.div_mod (ext t) secondsPerDay ltac:(unfold secondsPerDay; lia)) as E.
  rewrite Ce.
  replace (civilDays y m (d + k)) with (civilDays y m d + k)
    by (unfold civilDays; lia).
  rewrite R. lia.
Qed.

Lemma AddDate_days_utc t k : utc_time t -> utc_time (Time_AddDate t 0 0 k).
Proof.
  intros H. rewrite AddDate_days by exact H. destruct H as [_ H].
  split; [reflexivity | exact H].
Qed.

(** The day of the week of a UTC time, from its day number: the epoch
    day is a Monday. *)
Lemma Weekday_utc t :
  tloc t = UTC -> Time_Weekday t = (ext t / secondsPerDay + 1) mod 7.
Proof.
  intros Hl. unfold Time_Weekday. rewrite (abs_utc t Hl).
  unfold Monday, secondsPerWeek, secondsPerDay.
  pose proof (Z.div_mod (ext t) 86400 ltac:(lia)) as E.
  pose proof (Z.mod_pos_bound (ext t) 86400 ltac:(lia)) as B.
  set (D := ext t / 86400) in *. set (s := ext t mod 86400) in *.
  pose proof (Z.div_mod (D + 1) 7 ltac:(lia)) as E7.
  pose proof (Z.mod_pos_bound (D + 1) 7 ltac:(lia)) as B7.
  set (w := (D + 1) mod 7) in *. set (q := (D + 1) / 7) in *.
  replace (ext t + 1 * 86400) with ((86400 * w + s) + q * 604800) by lia.
  rewrite Z_mod_plus_full, Z.mod_small by lia.
  symmetry. apply (Z.div_unique _ _ _ s); lia.
Qed.


End CalendarFacts.

(* ================================================================= *)
(** ** Properties of package [zeit] *)

Module ZeitFacts.

Import GoTime zeit Spec CalendarFacts.

(** *** Stored instants *)

Lemma New_stored t loc : valid_time t -> stored (New t loc).
Proof. intros H. split; [reflexivity | exact H]. Qed.

Lemma UTC_utc_time t : utc_time t -> Time_UTC t = t.
Proof. destruct t as [e n l]. intros [Hl _]. simpl in Hl. subst l. reflexivity. Qed.

Lemma Time_Before_nanos t u :
  valid_time t -> valid_time u -> Time_Before t u = (nanos t <? nanos u).
Proof.
  unfold valid_time, Time_Before, nanos. intros Ht Hu.
  destruct (ext t <? ext u) eqn:E1; destruct (ext t =? ext u) eqn:E2;
    destruct (nsec t <? nsec u) eqn:E3; simpl; symmetry;
    rewrite ?Z.ltb_lt, ?Z.ltb_ge in *; rewrite ?Z.eqb_eq, ?Z.eqb_neq in *;
    try apply Z.ltb_lt; try apply Z.ltb_ge; nia.
Qed.

Lemma Time_After_Before t u : Time_After t u = Time_Before u t.
Proof. unfold Time_After, Time_Before. now rewrite (Z.eqb_sym (ext t)). Qed.

Lemma Time_Equal_nanos t u :
  valid_time t -> valid_time u -> Time_Equal t u = (nanos t =? nanos u).
Proof.
  unfold valid_time, Time_Equal, nanos. intros Ht Hu.
  destruct (ext t =? ext u) eqn:E2; destruct (nsec t =? nsec u) eqn:E3;
    simpl; symmetry;
    rewrite ?Z.eqb_eq, ?Z.eqb_neq in *;
    try apply Z.eqb_eq; try apply Z.eqb_neq; nia.
Qed.

(** *** Round trip through the database integer *)

(** The offset [Unix] adds and the one [Time_Unix] takes away cancel,
    also where the sum has wrapped around. *)
Lemma Time_Unix_of_Unix (Local : Location) (s : Z) :
  Int64.in_range s -> Time_Unix (Time_UTC (Unix Local s 0)) = s.
Proof.
  intros Hs. unfold Unix. change ((0 <? 0) || (1000000000 <=? 0)) with false.
  cbv iota. unfold unixTime, Time_UTC, Time_Unix. cbn [ext].
  unfold Int64.add, internalToUnix.
  rewrite Int64Facts.wrap_add_wrap.
  replace (s + unixToInternal + - unixToInternal) with s by lia.
  now apply Int64Facts.wrap_in_range.
Qed.

(** C4. Building a Zeit from a Unix-seconds integer and reading the
    whole-second Unix value back returns the integer, for every 64-bit
    integer and every zone (nil included): the two offsets between Unix
    and internal seconds cancel, also where the sum wraps around. *)
Theorem FromDatabase_ToDatabase_roundtrip
        (Local : Location) (s : Z) (loc : option Location) :
  Int64.in_range s ->
  ToDatabase (FromDatabase Local s loc) = s.
Proof.
  intros Hs. unfold ToDatabase, FromDatabase, New. cbn [instant].
  now apply Time_Unix_of_Unix.
Qed.

Lemma FromDatabase_ToDatabase_roundtrip_witness :
  Int64.in_range Int64.max_int
  /\ ToDatabase (FromDatabase (FixedZone "CET" 3600) Int64.max_int None)
     = Int64.max_int.
Proof.
  assert (H : Int64.in_range Int64.max_int)
    by (unfold Int64.in_range, Int64.min_int, Int64.max_int; lia).
  split; [exact H|].
  apply (FromDatabase_ToDatabase_roundtrip (FixedZone "CET" 3600) Int64.max_int None H).
Defined.

(** *** Equality and comparison ignore the display zone *)

(** C9. Two Zeits created from the same time value are equal whatever
    zones they are given; and [Equal], [Before] and [After] of any two
    Zeits are unchanged by switching their display zones. *)
Theorem New_Equal_any_zone :
  (forall (t : Time) (Z1 Z2 : option Location),
      Equal (New t Z1) (New t Z2) = true)
  /\ (forall (z w : Zeit) (Z1 Z2 : option Location),
        Equal (In z Z1) (In w Z2) = Equal z w
        /\ Before (In z Z1) (In w Z2) = Before z w
        /\ After (In z Z1) (In w Z2) = After z w).
Proof.
  split.
  - intros t Z1 Z2. unfold Equal, New, Time_Equal. cbn [instant Time_UTC ext nsec].
    now rewrite !Z.eqb_refl.
  - intros z w Z1 Z2. repeat split.
Qed.

(** *** Scan *)

(** C10. When [Scan] returns an error, the receiver is as it was before
    the call: neither its instant nor its location has been assigned. *)
Theorem Scan_error_keeps_receiver
        (Local : Location) (float_indef : Z) (z : Zeit) (src : any) (e : string) :
  snd (Scan Local float_indef z src) = Some e ->
  fst (Scan Local float_indef z src) = z
  /\ instant (fst (Scan Local float_indef z src)) = instant z
  /\ location (fst (Scan Local float_indef z src)) = location z.
Proof.
  intros H. destruct src; cbn in H |- *; try discriminate; repeat split.
Qed.

Lemma Scan_error_keeps_receiver_witness :
  let z := In (New (Date 2024 1 15 10 30 0 0 UTC) None) (Some (FixedZone "CET" 3600)) in
  snd (Scan UTC 0 z nil_value) = Some "zeit: cannot scan nil value"%string
  /\ fst (Scan UTC 0 z nil_value) = z.
Proof.
  intros z. split; [reflexivity|].
  apply (Scan_error_keeps_receiver UTC 0 z nil_value
           "zeit: cannot scan nil value"%string eq_refl).
Defined.

(** C3, as stated, fails: 1.5 is a float with no lossless integer
    conversion, and [Scan] accepts it, storing second 1. *)
Lemma Scan_accepts_fractional_float :
  let z := New (Date 2024 1 15 10 30 0 0 UTC) None in
  Scan_accepts_spec (float64_value one_and_a_half) = false
  /\ snd (Scan UTC 0 z (float64_value one_and_a_half)) = None
  /\ ToDatabase (fst (Scan UTC 0 z (float64_value one_and_a_half))) = 1.
Proof. vm_compute. repeat split. Qed.

(** C3, amended. [Scan] succeeds exactly on an [int64] and on a
    [float64] (any float: no check of the conversion is made), and fails
    on nil and on every other type; on success the location is UTC and
    the instant is the Unix second read, located in UTC. *)
Theorem Scan_succeeds_on_int64_and_float64
        (Local : Location) (float_indef : Z) (z : Zeit) (src : any) :
  (snd (Scan Local float_indef z src) = None
   <-> (exists v, src = int64_value v) \/ (exists v, src = float64_value v))
  /\ (snd (Scan Local float_indef z src) = None ->
      location (fst (Scan Local float_indef z src)) = Some UTC
      /\ tloc (instant (fst (Scan Local float_indef z src))) = UTC)
  /\ (forall v, Int64.in_range v ->
                ToDatabase (fst (Scan Local float_indef z (int64_value v))) = v).
Proof.
  split; [|split].
  - destruct src; cbn; split; intros H; try discriminate; try reflexivity;
      try (destruct H as [[v' H]|[v' H]]; discriminate); eauto.
  - destruct src; cbn; intros H; try discriminate; split; reflexivity.
  - intros v Hv. unfold ToDatabase. cbn [Scan fst instant].
    now apply Time_Unix_of_Unix.
Qed.

Lemma Scan_succeeds_on_int64_and_float64_witness :
  let z := New (Date 2024 1 15 10 30 0 0 UTC) (Some (FixedZone "CET" 3600)) in
  snd (Scan UTC 0 z (float64_value one_and_a_half)) = None
  /\ location (fst (Scan UTC 0 z (float64_value one_and_a_half))) = Some UTC.
Proof.
  intros z. split; [reflexivity|].
  apply (proj1 (proj2 (Scan_succeeds_on_int64_and_float64
                         UTC 0 z (float64_value one_and_a_half)))).
  reflexivity.
Defined.

(** *** Periods *)

(** C8, as stated, fails on a period whose two ends coincide: its start
    is not contained. *)
Lemma Contains_start_of_empty_period :
  let A := New (Date 2024 1 15 0 0 0 0 UTC) None in
  Contains (mkPeriod A A) A = false.
Proof. vm_compute. reflexivity. Qed.

(** C8, amended. [Contains] is membership in the half-open interval of
    absolute instants; the end is never contained, and the start is
    contained exactly when it lies strictly before the end. *)
Theorem Contains_half_open (p : Period) (t : Zeit) :
  valid_time (instant (StartsAt p)) ->
  valid_time (instant (EndsAt p)) ->
  valid_time (instant t) ->
  (Contains p t = true
   <-> nanos (instant (StartsAt p)) <= nanos (instant t)
       /\ nanos (instant t) < nanos (instant (EndsAt p)))
  /\ Contains p (EndsAt p) = false
  /\ (Contains p (StartsAt p) = true
      <-> nanos (instant (StartsAt p)) < nanos (instant (EndsAt p))).
Proof.
  intros HA HB Ht. unfold Contains, Before.
  rewrite !Time_Before_nanos by assumption.
  split; [|split].
  - rewrite andb_true_iff, negb_true_iff, Z.ltb_ge, Z.ltb_lt. tauto.
  - rewrite Z.ltb_irrefl. apply andb_false_r.
  - rewrite Z.ltb_irrefl. cbn [negb andb]. apply Z.ltb_lt.
Qed.

Lemma Contains_half_open_witness :
  let A := New (Date 2024 1 1 0 0 0 0 UTC) None in
  let B := New (Date 2024 2 1 0 0 0 0 UTC) None in
  Contains (mkPeriod A B) A = true /\ Contains (mkPeriod A B) B = false.
Proof.
  intros A B.
  assert (HA : valid_time (instant A)) by (unfold valid_time; change (nsec (instant A)) with 0; lia).
  assert (HB : valid_time (instant B)) by (unfold valid_time; change (nsec (instant B)) with 0; lia).
  destruct (Contains_half_open (mkPeriod A B) A HA HB HA) as (_ & HE & HS).
  split; [|exact HE].
  apply HS. vm_compute. reflexivity.
Defined.

(** *** Billing cycles *)

Lemma Cycles_loop_length n : forall interval current,
    List.length (Cycles_loop n interval current) = n.
Proof. induction n; intros; cbn; [reflexivity | now rewrite IHn]. Qed.

Lemma Cycles_loop_contiguous n : forall interval current (i : nat) d,
    (S i < n)%nat ->
    EndsAt (nth i (Cycles_loop n interval current) d)
    = StartsAt (nth (S i) (Cycles_loop n interval current) d).
Proof.
  induction n as [|n IH]; intros interval current i d Hi; [lia|].
  destruct i as [|i].
  - destruct n as [|n]; [lia|]. reflexivity.
  - cbn [Cycles_loop nth]. apply IH. lia.
Qed.

(** C5. [Cycles] returns the empty sequence for a count of zero or
    less; for a positive count it returns exactly [count] periods, the
    first starting at the anchor, each ending where the next starts. *)
Theorem Cycles_contiguous (z : Zeit) (count : Z) (interval : BillingInterval) :
  (count <= 0 -> Cycles z count interval = [])
  /\ (0 < count ->
      Z.of_nat (List.length (Cycles z count interval)) = count
      /\ (forall d, StartsAt (nth 0 (Cycles z count interval) d) = z)
      /\ (forall (i : nat) d,
            Z.of_nat i < count - 1 ->
            EndsAt (nth i (Cycles z count interval) d)
            = StartsAt (nth (S i) (Cycles z count interval) d))).
Proof.
  unfold Cycles. split.
  - intros H. apply Z.leb_le in H. now rewrite H.
  - intros H. destruct (count <=? 0) eqn:E; [apply Z.leb_le in E; lia|].
    split; [|split].
    + rewrite Cycles_loop_length. lia.
    + intros d. destruct (Z.to_nat count) eqn:En; [exfalso; lia|]. reflexivity.
    + intros i d Hi. apply Cycles_loop_contiguous. lia.
Qed.

Lemma Cycles_contiguous_witness :
  let z := New (Date 2024 1 31 10 0 0 0 UTC) None in
  List.length (Cycles z 2 Monthly) = 2%nat
  /\ EndsAt (nth 0 (Cycles z 2 Monthly) (mkPeriod z z))
     = StartsAt (nth 1 (Cycles z 2 Monthly) (mkPeriod z z))
  /\ Cycles z (-5) Daily = [].
Proof.
  intros z.
  destruct (Cycles_contiguous z 2 Monthly) as (_ & H).
  destruct (H ltac:(lia)) as (Hl & _ & Hc).
  split; [|split].
  - apply Nat2Z.inj. exact Hl.
  - apply (Hc 0%nat). lia.
  - apply (proj1 (Cycles_contiguous z (-5) Daily)). lia.
Defined.

(** *** Months *)

Lemma ordered_earlier_later d :
  ordered d = (earlier (instant (start d)) (instant (end_ d)),
               later (instant (start d)) (instant (end_ d))).
Proof.
  unfold ordered, earlier, later. rewrite Time_After_Before.
  destruct (Time_Before _ _); reflexivity.
Qed.

Lemma Months_is_spec d : Months d = Months_spec d.
Proof.
  unfold Months, Months_spec. rewrite ordered_earlier_later.
  set (s := earlier _ _). set (e := later _ _).
  destruct (Time_Day e <? Time_Day s);
    match goal with |- context [?x <? 0] => destruct (Z.ltb_spec x 0) end; lia.
Qed.

(** Two stored instants neither of which is before the other are the
    same time. *)
Lemma stored_not_Before_eq a b :
  stored a -> stored b ->
  Time_Before (instant a) (instant b) = false ->
  Time_Before (instant b) (instant a) = false ->
  instant a = instant b.
Proof.
  intros [Hla Hna] [Hlb Hnb] H1 H2.
  rewrite Time_Before_nanos in H1, H2 by assumption.
  apply Z.ltb_ge in H1, H2. unfold nanos in *.
  destruct (instant a) as [ea na la], (instant b) as [eb nb lb].
  cbn [ext nsec tloc] in *. subst la lb.
  assert (ea = eb) by nia. subst eb. assert (na = nb) by lia. now subst nb.
Qed.

(** C6. [Months] is twelve times the difference of the years plus the
    difference of the months, less one when the day of the month of the
    end is before that of the start, and never below zero; start and
    end are the earlier and the later instant, whichever was passed as
    the start of the span. *)
Theorem Months_formula (a b : Zeit) :
  stored a -> stored b ->
  Months (Until a b) = Months_spec (Until a b)
  /\ Months (Until b a) = Months (Until a b)
  /\ 0 <= Months (Until a b).
Proof.
  intros Ha Hb. split; [apply Months_is_spec|]. split.
  - rewrite !Months_is_spec. unfold Months_spec, Until, earlier, later.
    cbn [start end_].
    destruct (Time_Before (instant b) (instant a)) eqn:E1;
      destruct (Time_Before (instant a) (instant b)) eqn:E2; try reflexivity.
    + exfalso. destruct Ha as [_ Ha], Hb as [_ Hb].
      rewrite Time_Before_nanos in E1, E2 by assumption.
      apply Z.ltb_lt in E1, E2. lia.
    + now rewrite (stored_not_Before_eq a b Ha Hb E2 E1).
  - rewrite Months_is_spec. unfold Months_spec. lia.
Qed.

Lemma Months_formula_witness :
  let a := New (Date 2024 1 15 0 0 0 0 UTC) None in
  let b := New (Date 2024 2 14 0 0 0 0 UTC) None in
  let c := New (Date 2025 3 15 0 0 0 0 UTC) None in
  Months (Until a b) = 0 /\ Months (Until c a) = 14
  /\ Months (Until b a) = Months (Until a b).
Proof.
  intros a b c.
  assert (Ha : stored a) by (apply New_stored; unfold valid_time; vm_compute; split; [discriminate | reflexivity]).
  assert (Hb : stored b) by (apply New_stored; unfold valid_time; vm_compute; split; [discriminate | reflexivity]).
  assert (Hc : stored c) by (apply New_stored; unfold valid_time; vm_compute; split; [discriminate | reflexivity]).
  destruct (Months_formula a b Ha Hb) as (H1 & H2 & _).
  destruct (Months_formula c a Hc Ha) as (H3 & _ & _).
  split; [|split].
  - rewrite H1. vm_compute. reflexivity.
  - rewrite H3. vm_compute. reflexivity.
  - exact H2.
Defined.

(** *** Business days *)

Lemma shift_utc t x : utc_time t -> utc_time (shift t x).
Proof. intros [_ H]. split; [reflexivity | exact H]. Qed.

Lemma shift_0 t : utc_time t -> shift t 0 = t.
Proof.
  destruct t as [e n l]. intros [Hl _]. cbn in Hl. subst l.
  unfold shift. cbn [ext nsec]. f_equal. lia.
Qed.

Lemma shift_shift t x y : shift (shift t x) y = shift t (x + y).
Proof. unfold shift. cbn [ext nsec]. f_equal. lia. Qed.

Lemma Weekday_range t : 0 <= Time_Weekday t < 7.
Proof.
  unfold Time_Weekday, secondsPerWeek, secondsPerDay.
  pose proof (Z.mod_pos_bound (abs t + Monday * 86400) 604800 ltac:(lia)) as B.
  split; [apply Z.div_pos; lia | apply Z.div_lt_upper_bound; lia].
Qed.

Lemma Weekday_shift t x :
  utc_time t -> Time_Weekday (shift t x) = (Time_Weekday t + x) mod 7.
Proof.
  intros [Hl _]. rewrite (Weekday_utc (shift t x)) by reflexivity.
  rewrite (Weekday_utc t Hl). unfold shift. cbn [ext].
  replace (ext t + secondsPerDay * x) with (ext t + x * secondsPerDay) by lia.
  rewrite Z_div_plus_full by (unfold secondsPerDay; lia).
  rewrite Zplus_mod_idemp_l. f_equal. lia.
Qed.

Lemma gap_range direction t : 0 <= gap direction t <= 2.
Proof.
  unfold gap. destruct (direction =? 1);
    destruct (Time_Weekday t =? Saturday); destruct (Time_Weekday t =? Sunday); lia.
Qed.

(** Case analysis on a day of the week known to lie in [0, 7). *)
Ltac weekday_cases w :=
  let Hcases := fresh "Hcases" in
  assert (w = 0 \/ w = 1 \/ w = 2 \/ w = 3 \/ w = 4 \/ w = 5 \/ w = 6) as Hcases
      by lia;
  destruct Hcases as [-> | [-> | [-> | [-> | [-> | [-> | ->]]]]]].

Lemma gap_step direction t :
  utc_time t -> direction = 1 \/ direction = -1 ->
  gap direction (shift t direction)
  = if is_business_day (shift t direction) then 0 else gap direction t + 1.
Proof.
  intros Ht Hd. unfold gap, is_business_day. rewrite Weekday_shift by exact Ht.
  pose proof (Weekday_range t) as B. set (w := Time_Weekday t) in *.
  clearbody w.
  destruct Hd as [-> | ->]; weekday_cases w; reflexivity.
Qed.

Lemma instant_AddDays z x :
  stored z -> instant (AddDays z x) = shift (instant z) x.
Proof.
  intros Hz. unfold AddDays, New. cbn [instant].
  rewrite AddDate_days by exact Hz. reflexivity.
Qed.

Lemma AddDays_stored z x : stored z -> stored (AddDays z x).
Proof.
  intros Hz. unfold stored. rewrite instant_AddDays by exact Hz.
  now apply shift_utc.
Qed.

Lemma business_steps_from_instant k : forall z direction,
    stored z ->
    business_steps z direction k = business_steps_from (instant z) direction k.
Proof.
  induction k as [|k IH]; intros z direction Hz; [reflexivity|].
  cbn [business_steps business_steps_from].
  rewrite IH by now apply AddDays_stored.
  now rewrite instant_AddDays.
Qed.

Lemma AddBusinessDays_loop_spec fuel : forall direction days i current,
    utc_time current ->
    direction = 1 \/ direction = -1 ->
    i <= days ->
    3 * (days - i) <= Z.of_nat fuel + gap direction current ->
    exists k : nat,
      AddBusinessDays_loop fuel direction days i current
      = Some (shift current (direction * Z.of_nat k))
      /\ business_steps_from current direction k = days - i
      /\ (i = days -> k = 0%nat)
      /\ (i < days ->
          is_business_day (shift current (direction * Z.of_nat k)) = true).
Proof.
  induction fuel as [|fuel IH]; intros direction days i current Hc Hd Hi Hf;
    pose proof (gap_range direction current) as Hg.
  - assert (i = days) by lia. subst i. exists 0%nat.
    cbn [AddBusinessDays_loop]. rewrite Z.ltb_irrefl.
    rewrite Z.mul_0_r, shift_0 by exact Hc.
    repeat split; [cbn; lia | lia].
  - cbn [AddBusinessDays_loop].
    destruct (Z.ltb_spec i days) as [Hlt | Hge].
    + rewrite AddDate_days by exact Hc.
      fold (shift current direction).
      pose proof (gap_step direction current Hc Hd) as Hgs.
      pose proof (shift_utc current direction Hc) as Hc'.
      fold (is_business_day (shift current direction)).
      destruct (is_business_day (shift current direction)) eqn:Eb.
      * destruct (IH direction days (i + 1) (shift current direction) Hc' Hd)
          as (k & Hk & Hn & Hz & Hb); [lia | lia |].
        exists (S k). rewrite Hk, shift_shift.
        replace (direction + direction * Z.of_nat k)
          with (direction * Z.of_nat (S k)) by lia.
        repeat split; [|lia|].
        -- cbn [business_steps_from]. rewrite Eb. lia.
        -- intros _. destruct (Z.eq_dec (i + 1) days) as [He | Hne].
           ++ rewrite (Hz He). replace (direction * Z.of_nat 1) with direction by lia.
              exact Eb.
           ++ specialize (Hb ltac:(lia)). rewrite shift_shift in Hb.
              replace (direction * Z.of_nat (S k))
                with (direction + direction * Z.of_nat k) by lia.
              exact Hb.
      * destruct (IH direction days i (shift current direction) Hc' Hd)
          as (k & Hk & Hn & Hz & Hb); [lia | lia |].
        exists (S k). rewrite Hk, shift_shift.
        replace (direction + direction * Z.of_nat k)
          with (direction * Z.of_nat (S k)) by lia.
        repeat split; [|lia|].
        -- cbn [business_steps_from]. rewrite Eb. lia.
        -- intros _. specialize (Hb Hlt). rewrite shift_shift in Hb.
           replace (direction * Z.of_nat (S k))
             with (direction + direction * Z.of_nat k) by lia.
           exact Hb.
    + assert (i = days) by lia. subst i. exists 0%nat.
      rewrite Z.mul_0_r, shift_0 by exact Hc.
      repeat split; [cbn; lia | lia].
Qed.

(** C2, as stated, fails for a count of zero: no day is crossed, and a
    start on a Saturday is returned as it is. *)
Lemma AddBusinessDays_zero_on_saturday :
  let z := New (Date 2024 1 20 10 0 0 0 UTC) None in
  AddBusinessDays z 0 = Some z /\ Time_Weekday (instant z) = Saturday.
Proof. vm_compute. split; reflexivity. Qed.

(** C2, amended. For a stored instant and a count [n] whose negation
    fits an [int], [AddBusinessDays] returns: the result lies [k]
    calendar days from the start in the direction of the sign of [n],
    exactly [|n|] of the days crossed are business days, and the display
    zone is kept.  For [n = 0] no day is crossed and the instant is the
    start's, whatever its day of the week; for every other [n] the
    result falls on neither a Saturday nor a Sunday. *)
Theorem AddBusinessDays_skips_weekends (z : Zeit) (n : Z) :
  stored z ->
  Int64.min_int < n <= Int64.max_int ->
  let direction := if n <? 0 then -1 else 1 in
  exists (k : nat) (r : Zeit),
    AddBusinessDays z n = Some r
    /\ r = AddDays z (direction * Z.of_nat k)
    /\ location r = location (New (instant z) (location z))
    /\ business_steps z direction k = Z.abs n
    /\ (n = 0 -> k = 0%nat /\ instant r = instant z)
    /\ (n <> 0 ->
        Time_Weekday (instant r) <> Saturday
        /\ Time_Weekday (instant r) <> Sunday).
Proof.
  intros Hz Hn direction.
  assert (Hd : direction = 1 \/ direction = -1)
    by (unfold direction; destruct (n <? 0); auto).
  unfold AddBusinessDays, AddBusinessDays_fuel.
  assert (E : (if n <? 0 then (-1, Int64.neg n) else (1, n)) = (direction, Z.abs n)).
  { unfold direction. destruct (Z.ltb_spec n 0).
    - rewrite Int64Facts.neg_in_range by exact Hn. f_equal. lia.
    - f_equal. lia. }
  rewrite E.
  pose proof (gap_range direction (instant z)) as Hg.
  destruct (AddBusinessDays_loop_spec (Z.to_nat (3 * Z.abs n)) direction
              (Z.abs n) 0 (instant z) Hz Hd) as (k & Hk & Hc & H0 & Hb);
    [lia | lia |].
  rewrite Hk. exists k. eexists. split; [reflexivity|].
  assert (Ei : instant (AddDays z (direction * Z.of_nat k))
               = shift (instant z) (direction * Z.of_nat k))
    by now apply instant_AddDays.
  repeat split.
  - unfold AddDays. rewrite AddDate_days by exact Hz. reflexivity.
  - rewrite business_steps_from_instant by exact Hz. lia.
  - apply H0. lia.
  - cbn [New instant]. rewrite (H0 ltac:(lia)).
    rewrite Z.mul_0_r, shift_0 by exact Hz. now apply UTC_utc_time.
  - intros Hs. cbn [New instant] in Hs.
    change (Time_UTC (shift (instant z) (direction * Z.of_nat k)))
      with (shift (instant z) (direction * Z.of_nat k)) in Hs.
    specialize (Hb ltac:(lia)). unfold is_business_day in Hb.
    rewrite Hs in Hb. discriminate.
  - intros Hs. cbn [New instant] in Hs.
    change (Time_UTC (shift (instant z) (direction * Z.of_nat k)))
      with (shift (instant z) (direction * Z.of_nat k)) in Hs.
    specialize (Hb ltac:(lia)). unfold is_business_day in Hb.
    rewrite Hs in Hb. discriminate.
Qed.

Lemma AddBusinessDays_skips_weekends_witness :
  let z := New (Date 2024 1 19 10 0 0 0 UTC) None in
  exists (k : nat) (r : Zeit),
    AddBusinessDays z (-6) = Some r
    /\ r = AddDays z (-1 * Z.of_nat k)
    /\ business_steps z (-1) k = 6
    /\ Time_Weekday (instant r) <> Saturday
    /\ Time_Weekday (instant r) <> Sunday.
Proof.
  intros z.
  assert (Hz : stored z)
    by (apply New_stored; unfold valid_time; vm_compute; split;
        [discriminate | reflexivity]).
  assert (Hn : Int64.min_int < -6 <= Int64.max_int)
    by (unfold Int64.min_int, Int64.max_int; lia).
  destruct (AddBusinessDays_skips_weekends z (-6) Hz Hn)
    as (k & r & H1 & H2 & _ & H4 & _ & H6).
  exists k, r. repeat split; try assumption; apply H6; lia.
Defined.

(** The one count the theorem leaves out: the negation of the least
    [int] wraps around to itself, the loop condition fails at once, and
    the start is returned without a step. *)
Lemma AddBusinessDays_min_int (z : Zeit) :
  AddBusinessDays z Int64.min_int = Some (New (instant z) (location z)).
Proof.
  unfold AddBusinessDays. generalize (Z.to_nat (3 * Z.abs Int64.min_int)).
  intros fuel. unfold AddBusinessDays_fuel.
  change (Int64.min_int <? 0) with true. cbv iota.
  rewrite Int64Facts.neg_min_int.
  destruct fuel; reflexivity.
Qed.

(** *** Business days of a span *)

Lemma count_business_days_app a : forall t i b,
    count_business_days t i (a + b)
    = count_business_days t i a + count_business_days t (i + Z.of_nat a) b.
Proof.
  induction a as [|a IH]; intros t i b.
  - cbn [Nat.add count_business_days Z.of_nat]. now rewrite Z.add_0_r.
  - cbn [Nat.add count_business_days]. rewrite IH.
    replace (i + 1 + Z.of_nat a) with (i + Z.of_nat (S a)) by lia. lia.
Qed.




Lemma AddDate_shift t k : utc_time t -> Time_AddDate t 0 0 k = shift t k.
Proof. intros Ht. now rewrite AddDate_days. Qed.









(** C7, where the code departs from it.  From 1700-01-01 to 2024-01-01
    there are 118338 dates, 84526 of them business days.  The difference
    of the two midnights does not fit a [time.Duration], [Sub] returns
    the largest one, and [BusinessDays] counts the business days of the
    106751 days that fit: 76251.  (On spans of at most 106751 days
    [BusinessDays] is the count: [BusinessDays_in_range].) *)
Theorem BusinessDays_saturates_on_long_span (float_indef : Z) :
  let a := New (Date 1700 1 1 0 0 0 0 UTC) None in
  let b := New (Date 2024 1 1 0 0 0 0 UTC) None in
  dates_between (instant a) (instant b) = 118338
  /\ Time_Sub (instant b) (instant a) = maxDuration
  /\ BusinessDays_spec (Until a b) = 84526
  /\ BusinessDays float_indef (Until a b) = 76251.
Proof.
  intros a b.
  vm_cast_no_check
    (conj (eq_refl 118338)
       (conj (eq_refl maxDuration) (conj (eq_refl 84526) (eq_refl 76251)))).
Qed.

(** C1, where the code departs from it.  [AddDate] does not clamp the
    day of the month: one month after January 31 it normalizes
    "February 31" by carrying the days past the end of February into
    March.  The first of two monthly periods anchored at
    2024-01-31T10:00:00Z ends on 2024-03-02T10:00:00Z, not on
    2024-02-29. *)
Theorem Cycles_monthly_from_january_31 :
  let anchor := New (Date 2024 1 31 10 0 0 0 UTC) (Some UTC) in
  map (fun p => (Time_Date (instant (StartsAt p)), Time_Date (instant (EndsAt p))))
      (Cycles anchor 2 Monthly)
  = [((2024, 1, 31), (2024, 3, 2)); ((2024, 3, 2), (2024, 4, 2))]
  /\ EndsAt (nth 0 (Cycles anchor 2 Monthly) (mkPeriod anchor anchor))
     = New (Date 2024 3 2 10 0 0 0 UTC) (Some UTC)
  /\ Time_Date (instant (EndsAt (nth 0 (Cycles anchor 2 Monthly)
                                     (mkPeriod anchor anchor))))
     <> (2024, 2, 29).
Proof. vm_compute. repeat split. discriminate. Qed.

End ZeitFacts.

(* ================================================================= *)
(** ** Facts about months *)

Module MonthFacts.

Import GoTime zeit Spec CalendarFacts ZeitFacts.

Lemma cycle_months_ok : all_from (Z.to_nat 4800) 0 cycle_month_ok = true.
Proof. vm_cast_no_check (eq_refl true). Qed.

Lemma yearOf_monthIndex y m : 1 <= m <= 12 -> yearOf (monthIndex y m) = y.
Proof.
  intros H. unfold yearOf, monthIndex.
  symmetry. apply (Z.div_unique _ _ _ (m - 1)); lia.
Qed.

Lemma monthOf_monthIndex y m : 1 <= m <= 12 -> monthOf (monthIndex y m) = m.
Proof.
  intros H. unfold monthOf, monthIndex.
  replace (12 * y + (m - 1)) with ((m - 1) + y * 12) by lia.
  rewrite Z_mod_plus_full, Z.mod_small; lia.
Qed.


Lemma yearOf_shift M q : yearOf (M + 4800 * q) = yearOf M + 400 * q.
Proof.
  unfold yearOf. replace (M + 4800 * q) with (M + (400 * q) * 12) by lia.
  now rewrite Z_div_plus_full by lia.
Qed.

Lemma monthOf_shift M q : monthOf (M + 4800 * q) = monthOf M.
Proof.
  unfold monthOf. replace (M + 4800 * q) with (M + (400 * q) * 12) by lia.
  now rewrite Z_mod_plus_full.
Qed.

Lemma daysIn_shift y m q : daysIn (y + 400 * q) m = daysIn y m.
Proof. unfold daysIn. now rewrite isLeap_shift. Qed.

Lemma daysIn_range y m : 28 <= daysIn y m <= 31.
Proof.
  unfold daysIn. destruct (m =? 2); [destruct (isLeap y); lia|].
  destruct ((m =? 4) || (m =? 6) || (m =? 9) || (m =? 11)); lia.
Qed.

Lemma firstDay_shift M q :
  firstDay (M + 4800 * q) = firstDay M + daysPer400Years * q.
Proof.
  unfold firstDay. now rewrite yearOf_shift, monthOf_shift, civilDays_shift.
Qed.

Lemma cycle_month_ok_mod M : cycle_month_ok (M mod 4800) = true.
Proof.
  pose proof (Z.mod_pos_bound M 4800 ltac:(lia)) as B.
  pose proof (all_from_spec _ _ _ cycle_months_ok (M mod 4800)) as H.
  rewrite Z2Nat.id in H by lia. apply H. lia.
Qed.

(** A month starts [daysIn] days after the one before. *)
Lemma firstDay_succ M :
  firstDay (M + 1) = firstDay M + daysIn (yearOf M) (monthOf M).
Proof.
  pose proof (Z.div_mod M 4800 ltac:(lia)) as E.
  pose proof (cycle_month_ok_mod M) as H.
  set (r := M mod 4800) in *. set (q := M / 4800) in *.
  replace M with (r + 4800 * q) by lia.
  replace (r + 4800 * q + 1) with (r + 1 + 4800 * q) by lia.
  rewrite !firstDay_shift, yearOf_shift, monthOf_shift, daysIn_shift.
  unfold cycle_month_ok in H. apply andb_true_iff in H as [H _].
  apply Z.eqb_eq in H. lia.
Qed.


Lemma firstDay_monthIndex y m :
  1 <= m <= 12 -> firstDay (monthIndex y m) = civilDays y m 1.
Proof.
  intros H. unfold firstDay.
  now rewrite yearOf_monthIndex, monthOf_monthIndex.
Qed.

Lemma civilDays_firstDay y m d :
  1 <= m <= 12 -> civilDays y m d = firstDay (monthIndex y m) + d - 1.
Proof.
  intros H. rewrite firstDay_monthIndex by exact H. unfold civilDays. lia.
Qed.



(** [norm] is division with remainder, rounding down. *)
Lemma norm_div_mod hi lo base :
  0 < base -> norm hi lo base = (hi + lo / base, lo mod base).
Proof.
  intros Hb. unfold norm.
  pose proof (Z.div_mod lo base ltac:(lia)) as E.
  pose proof (Z.mod_pos_bound lo base Hb) as B.
  destruct (Z.ltb_spec lo 0) as [Hneg | Hpos].
  - rewrite Z.quot_div_nonneg by lia.
    pose proof (Z.div_mod (- lo - 1) base ltac:(lia)) as E'.
    pose proof (Z.mod_pos_bound (- lo - 1) base Hb) as B'.
    set (k := (- lo - 1) / base) in *.
    assert (Hq : lo / base = - (k + 1))
      by (symmetry; apply (Z.div_unique _ _ _ (base - 1 - (- lo - 1) mod base)); lia).
    assert (Hr : lo mod base = lo + (k + 1) * base) by (rewrite Hq in E; lia).
    destruct (Z.leb_spec base (lo + (k + 1) * base)) as [H1 | H1]; [lia|].
    f_equal; lia.
  - destruct (Z.leb_spec base lo) as [H1 | H1].
    + rewrite Z.quot_div_nonneg by lia. f_equal; lia.
    + rewrite Z.div_small, Z.mod_small by lia. f_equal; lia.
Qed.

Lemma yearOf_monthIndex_any y m : yearOf (monthIndex y m) = y + (m - 1) / 12.
Proof.
  unfold yearOf, monthIndex.
  replace (12 * y + (m - 1)) with ((m - 1) + y * 12) by lia.
  rewrite Z_div_plus_full by lia. lia.
Qed.

Lemma monthOf_monthIndex_any y m : monthOf (monthIndex y m) = (m - 1) mod 12 + 1.
Proof.
  unfold monthOf, monthIndex.
  replace (12 * y + (m - 1)) with ((m - 1) + y * 12) by lia.
  now rewrite Z_mod_plus_full.
Qed.

(** [Date] in a zone of constant offset, for a clock time that needs no
    carrying: the month may overflow into the year and the day into the
    month. *)
Lemma Date_fixed_offset l offset y m d h mi s ns :
  fixed_offset l offset ->
  0 <= h < 24 -> 0 <= mi < 60 -> 0 <= s < 60 -> 0 <= ns < 1000000000 ->
  Date y m d h mi s ns l
  = mkTime ((firstDay (monthIndex y m) + d - 1) * secondsPerDay
            + (h * secondsPerHour + mi * secondsPerMinute + s) - offset) ns l.
Proof.
  intros Hl Hh Hmi Hs Hns. unfold Date.
  rewrite (norm_div_mod y (m - 1) 12) by lia.
  rewrite (norm_id s ns) by lia.
  rewrite (norm_id mi s) by lia.
  rewrite (norm_id h mi) by lia.
  rewrite (norm_id d h) by lia.
  rewrite !Hl.
  unfold firstDay. rewrite yearOf_monthIndex_any, monthOf_monthIndex_any.
  set (y' := y + (m - 1) / 12). set (m' := (m - 1) mod 12).
  unfold civilDays, internalToUnix.
  replace (m' + 1 - 1) with m' by lia.
  destruct (Z.eqb_spec offset 0) as [-> | Hne]; f_equal; lia.
Qed.


Lemma fixed_offset_UTC : fixed_offset UTC 0.
Proof. intros u. reflexivity. Qed.




Lemma Time_Add_nanos t d :
  valid_time t ->
  nanos (Time_Add t d) = nanos t + d
  /\ valid_time (Time_Add t d)
  /\ tloc (Time_Add t d) = tloc t.
Proof.
  unfold valid_time, Time_Add, nanos. intros Ht.
  pose proof (Z.quot_rem' d 1000000000) as E.
  pose proof (Z.rem_bound_abs d 1000000000 ltac:(lia)) as B.
  set (q := Z.quot d 1000000000) in *. set (r := Z.rem d 1000000000) in *.
  destruct (Z.leb_spec 1000000000 (nsec t + r));
    [cbn [ext nsec tloc]; repeat split; lia|].
  destruct (Z.ltb_spec (nsec t + r) 0); cbn [ext nsec tloc]; repeat split; lia.
Qed.

(** [Sub] is the exact difference when it fits a [Duration], and the
    nearest end of the range otherwise. *)
Lemma Time_Sub_spec t u :
  valid_time t -> valid_time u ->
  Time_Sub t u
  = if (Int64.min_int <=? nanos t - nanos u) && (nanos t - nanos u <=? Int64.max_int)
    then nanos t - nanos u
    else if nanos t <? nanos u then minDuration else maxDuration.
Proof.
  intros Ht Hu. unfold Time_Sub.
  replace ((ext t - ext u) * Second + (nsec t - nsec u)) with (nanos t - nanos u)
    by (unfold nanos, Second; lia).
  set (x := nanos t - nanos u).
  destruct (Time_Add_nanos u (Int64.wrap x) Hu) as (Hn & Hv & _).
  rewrite Time_Equal_nanos, Time_Before_nanos, Hn by assumption.
  pose proof (Int64Facts.wrap_range x) as Hr.
  unfold Int64.in_range in Hr.
  destruct (Z.leb_spec Int64.min_int x); destruct (Z.leb_spec x Int64.max_int);
    cbn [andb].
  - rewrite Int64Facts.wrap_in_range by (split; assumption).
    replace (nanos u + x) with (nanos t) by (unfold x; lia).
    now rewrite Z.eqb_refl.
  - destruct (Z.eqb_spec (nanos u + Int64.wrap x) (nanos t)); [lia | reflexivity].
  - destruct (Z.eqb_spec (nanos u + Int64.wrap x) (nanos t)); [lia | reflexivity].
  - lia.
Qed.

Lemma nanos_shift t n : nanos (shift t n) = nanos t + n * (24 * Hour).
Proof. unfold nanos, shift, secondsPerDay, Hour, Minute, Second. cbn [ext nsec]. lia. Qed.


Lemma monthIndex_add y m years months :
  monthIndex (y + years) (m + months) = monthIndex y m + (12 * years + months).
Proof. unfold monthIndex. lia. Qed.

(** On a UTC time, [AddDate] moves the instant by a whole number of
    days: those between the first days of the two months, and [days]. *)
Lemma AddDate_utc t years months days :
  utc_time t ->
  Time_AddDate t years months days
  = shift t (firstDay (month_of_time t + (12 * years + months))
             - firstDay (month_of_time t) + days).
Proof.
  intros [Hl Hn]. unfold month_of_time, Time_Year, Time_Month.
  unfold Time_AddDate, Time_Date, Time_Clock, Time_Location.
  rewrite (abs_utc t Hl), Hl.
  pose proof (absDate_civilDays (ext t / secondsPerDay)) as R.
  destruct (absDate (ext t / secondsPerDay)) as [[y m] d].
  destruct R as (R & Rm & Rd). cbn [fst snd].
  pose proof (Clock_range (ext t)) as C. cbv zeta in C.
  destruct C as (Ch & Cm & Cs & Ce).
  rewrite (Date_fixed_offset UTC 0) by (auto using fixed_offset_UTC; lia).
  rewrite Ce, monthIndex_add. unfold shift. f_equal.
  pose proof (Z.div_mod (ext t) secondsPerDay ltac:(unfold secondsPerDay; lia)) as E.
  rewrite (civilDays_firstDay y m d Rm) in R. lia.
Qed.

Lemma cycle_quarters_ok : all_from (Z.to_nat 4800) 0 cycle_quarter_ok = true.
Proof. vm_cast_no_check (eq_refl true). Qed.

(** A quarter lasts 89 to 92 days, a year 365 or 366. *)
Lemma quarter_year_length M :
  89 <= firstDay (M + 3) - firstDay M <= 92
  /\ 365 <= firstDay (M + 12) - firstDay M <= 366.
Proof.
  pose proof (Z.div_mod M 4800 ltac:(lia)) as E.
  pose proof (Z.mod_pos_bound M 4800 ltac:(lia)) as B.
  set (r := M mod 4800) in *. set (q := M / 4800) in *.
  pose proof (all_from_spec _ _ _ cycle_quarters_ok r) as H.
  rewrite Z2Nat.id in H by lia. specialize (H ltac:(lia)).
  replace M with (r + 4800 * q) by lia.
  replace (r + 4800 * q + 3) with (r + 3 + 4800 * q) by lia.
  replace (r + 4800 * q + 12) with (r + 12 + 4800 * q) by lia.
  rewrite !firstDay_shift. unfold cycle_quarter_ok in H.
  repeat (apply andb_true_iff in H; destruct H as [H ?]).
  rewrite ?Z.leb_le in *. lia.
Qed.

Lemma interval_days_range interval M :
  1 <= interval_days interval M <= 366.
Proof.
  unfold interval_days.
  pose proof (quarter_year_length M) as [Hq Hy].
  pose proof (firstDay_succ M) as Hm.
  pose proof (daysIn_range (yearOf M) (monthOf M)) as Hd.
  destruct (interval =? Daily); [lia|].
  destruct (interval =? Weekly); [lia|].
  destruct (interval =? Monthly); [lia|].
  destruct (interval =? Quarterly); [lia|].
  destruct (interval =? Yearly); lia.
Qed.

(** One step of [Cycles] from a stored instant is a move by a whole
    number of days. *)
Lemma Cycles_next_AddDays interval current :
  stored current ->
  Cycles_next interval current
  = AddDays current (interval_days interval (month_of_time (instant current))).
Proof.
  intros Hc. unfold Cycles_next, interval_days, AddDays.
  set (M := month_of_time (instant current)).
  assert (HA : forall years months days,
             Time_AddDate (instant current) years months days
             = shift (instant current)
                 (firstDay (M + (12 * years + months)) - firstDay M + days))
    by (intros; now apply AddDate_utc).
  destruct (interval =? Daily); [reflexivity|].
  destruct (interval =? Weekly); [reflexivity|].
  rewrite !HA. cbn [Z.mul Z.add]. rewrite !Z.add_0_r, Z.sub_diag, !Z.add_0_l.
  destruct (interval =? Monthly); [reflexivity|].
  destruct (interval =? Quarterly); [reflexivity|].
  destruct (interval =? Yearly); reflexivity.
Qed.

End MonthFacts.

(* ================================================================= *)
(** ** Further properties of package [zeit] *)

Module ZeitProperties.

Import GoTime zeit Spec CalendarFacts ZeitFacts MonthFacts.

(** *** Moving an instant: [AddDays], [Add]; [Value] and [Scan] *)

Lemma stored_valid z : stored z -> valid_time (instant z).
Proof. intros [_ H]. exact H. Qed.


Lemma New_shift t n loc : New (shift t n) loc = mkZeit (shift t n) (zone_or_UTC loc).
Proof. reflexivity. Qed.

Lemma AddDays_shift z n :
  stored z -> AddDays z n = mkZeit (shift (instant z) n) (zone_or_UTC (location z)).
Proof.
  intros Hz. unfold AddDays. now rewrite AddDate_shift.
Qed.





(** X3. What [Value] writes, [Scan] reads back: the scan succeeds, and
    the receiver holds the whole second of the Zeit written, in UTC,
    whatever it held before. *)
Theorem Scan_Value_roundtrip
        (Local : Location) (float_indef : Z) (z receiver : Zeit) :
  snd (Value z) = None
  /\ snd (Scan Local float_indef receiver (fst (Value z))) = None
  /\ ToDatabase (fst (Scan Local float_indef receiver (fst (Value z))))
     = ToDatabase z
  /\ nsec (instant (fst (Scan Local float_indef receiver (fst (Value z))))) = 0
  /\ location (fst (Scan Local float_indef receiver (fst (Value z)))) = Some UTC.
Proof.
  unfold Value. cbn [fst snd Scan]. repeat split.
  unfold ToDatabase. cbn [instant].
  apply Time_Unix_of_Unix. unfold Time_Unix, Int64.add.
  apply Int64Facts.wrap_range.
Qed.

(** *** Billing cycles: the periods of the loop *)

Lemma Contains_nanos p t :
  valid_time (instant (StartsAt p)) -> valid_time (instant (EndsAt p)) ->
  valid_time (instant t) ->
  Contains p t = true
  <-> nanos (instant (StartsAt p)) <= nanos (instant t) < nanos (instant (EndsAt p)).
Proof.
  intros HA HB Ht. unfold Contains, Before.
  rewrite !Time_Before_nanos by assumption.
  rewrite andb_true_iff, negb_true_iff, Z.ltb_ge, Z.ltb_lt. tauto.
Qed.

Lemma Cycles_next_stored interval current :
  stored current -> stored (Cycles_next interval current).
Proof.
  intros Hc. rewrite Cycles_next_AddDays by exact Hc. now apply AddDays_stored.
Qed.

Lemma Cycles_next_nanos interval current :
  stored current ->
  nanos (instant (Cycles_next interval current))
  = nanos (instant current)
    + interval_days interval (month_of_time (instant current)) * (24 * Hour).
Proof.
  intros Hc. rewrite Cycles_next_AddDays, instant_AddDays by exact Hc.
  apply nanos_shift.
Qed.

Lemma Cycles_next_location interval current :
  location (Cycles_next interval current) = zone_or_UTC (location current).
Proof.
  unfold Cycles_next, AddDays.
  destruct (interval =? Daily); [reflexivity|].
  destruct (interval =? Weekly); [reflexivity|].
  destruct (interval =? Monthly); [reflexivity|].
  destruct (interval =? Quarterly); [reflexivity|].
  destruct (interval =? Yearly); reflexivity.
Qed.

(** What holds of every period the loop of [Cycles] builds. *)
Lemma Cycles_loop_periods n : forall interval current p,
    stored current ->
    List.In p (Cycles_loop n interval current) ->
    stored (StartsAt p)
    /\ EndsAt p = Cycles_next interval (StartsAt p)
    /\ nanos (instant current) <= nanos (instant (StartsAt p))
    /\ (StartsAt p = current
        \/ location (StartsAt p) = zone_or_UTC (location current)).
Proof.
  induction n as [|n IH]; intros interval current p Hc Hp; [destruct Hp|].
  cbn [Cycles_loop] in Hp. destruct Hp as [<- | Hp].
  - cbn [StartsAt EndsAt]. repeat split; try apply Hc; auto. lia.
  - destruct (IH interval _ p (Cycles_next_stored interval current Hc) Hp)
      as (Hs & He & Hn & Hl).
    pose proof (Cycles_next_nanos interval current Hc) as Hx.
    pose proof (interval_days_range interval (month_of_time (instant current))) as Hr.
    split; [exact Hs|]. split; [exact He|]. split.
    + unfold Hour, Minute, Second in *. nia.
    + right. destruct Hl as [-> | Hl].
      * apply Cycles_next_location.
      * rewrite Hl, Cycles_next_location. now destruct (location current).
Qed.

(** *** Billing cycles: lengths, zones and tiling *)



(** X6. Every period [Cycles] generates carries the display zone of the
    anchor at both ends, and both ends are stored instants. *)
Theorem Cycles_keep_zone
        (z : Zeit) (count : Z) (interval : BillingInterval) (p : Period)
        (loc : Location) :
  stored z -> location z = Some loc ->
  List.In p (Cycles z count interval) ->
  location (StartsAt p) = Some loc /\ location (EndsAt p) = Some loc
  /\ stored (StartsAt p) /\ stored (EndsAt p).
Proof.
  intros Hz Hl Hp. unfold Cycles in Hp.
  destruct (count <=? 0); [destruct Hp|].
  destruct (Cycles_loop_periods _ _ _ _ Hz Hp) as (Hs & He & _ & Hloc).
  assert (HS : location (StartsAt p) = Some loc)
    by (destruct Hloc as [-> | ->]; [exact Hl | now rewrite Hl]).
  split; [exact HS|]. rewrite He, Cycles_next_location, HS.
  split; [reflexivity|]. split; [exact Hs | now apply Cycles_next_stored].
Qed.

Lemma Cycles_keep_zone_witness :
  let berlin := FixedZone "CET" 3600 in
  let z := New (Date 2024 1 15 10 0 0 0 UTC) (Some berlin) in
  let p := mkPeriod (New (Date 2024 7 15 10 0 0 0 UTC) (Some berlin))
                    (New (Date 2024 10 15 10 0 0 0 UTC) (Some berlin)) in
  List.In p (Cycles z 3 Quarterly)
  /\ location (StartsAt p) = Some berlin /\ location (EndsAt p) = Some berlin.
Proof.
  intros berlin z p.
  assert (Hz : stored z)
    by (apply New_stored; unfold valid_time; vm_compute; split;
        [discriminate | reflexivity]).
  assert (Hp : List.In p (Cycles z 3 Quarterly))
    by (right; right; left; reflexivity).
  destruct (Cycles_keep_zone z 3 Quarterly p berlin Hz eq_refl Hp) as (H1 & H2 & _).
  split; [exact Hp | split; assumption].
Defined.

(** The periods of the loop cover the time from the first start to the
    last end without gap or overlap. *)
Lemma Cycles_loop_partition n : forall interval current t d,
    stored current -> valid_time (instant t) ->
    let ps := Cycles_loop (S n) interval current in
    nanos (instant current) <= nanos (instant t)
      < nanos (instant (EndsAt (last ps d))) ->
    exists i : nat,
      (i < List.length ps)%nat
      /\ Contains (nth i ps d) t = true
      /\ forall j : nat,
          (j < List.length ps)%nat -> Contains (nth j ps d) t = true -> j = i.
Proof.
  induction n as [|n IH]; intros interval current t d Hc Ht ps Hr.
  - exists 0%nat. subst ps. cbn [Cycles_loop last List.length nth] in *.
    split; [lia|]. split.
    + apply Contains_nanos; cbn [StartsAt EndsAt];
        try apply Hc; try apply (Cycles_next_stored interval current Hc); auto.
    + intros j Hj _. lia.
  - set (next := Cycles_next interval current) in *.
    pose proof (Cycles_next_stored interval current Hc) as Hn.
    pose proof (Cycles_next_nanos interval current Hc) as Hx.
    pose proof (interval_days_range interval (month_of_time (instant current))) as Hd.
    fold next in Hn, Hx.
    assert (Hps : ps = mkPeriod current next :: Cycles_loop (S n) interval next)
      by reflexivity.
    assert (Hlast : last ps d = last (Cycles_loop (S n) interval next) d)
      by (rewrite Hps; reflexivity).
    rewrite Hlast in Hr.
    destruct (Z_lt_ge_dec (nanos (instant t)) (nanos (instant next))) as [Hlt | Hge].
    + exists 0%nat. rewrite Hps. cbn [List.length nth]. split; [lia|]. split.
      * apply Contains_nanos; cbn [StartsAt EndsAt]; try apply Hc; try apply Hn; auto.
        lia.
      * intros [|j] Hj Hcj; [reflexivity | exfalso].
        assert (Hin : List.In (nth j (Cycles_loop (S n) interval next) d)
                              (Cycles_loop (S n) interval next))
          by (apply nth_In; lia).
        destruct (Cycles_loop_periods _ _ _ _ Hn Hin) as (Hs & He & Hm & _).
        apply Contains_nanos in Hcj;
          [lia | apply Hs | rewrite He; apply (Cycles_next_stored _ _ Hs) | exact Ht].
    + destruct (IH interval next t d Hn Ht ltac:(lia)) as (i & Hi & Hci & Hu).
      exists (S i). rewrite Hps. cbn [List.length nth]. split; [lia|].
      split; [exact Hci|].
      intros [|j] Hj Hcj.
      * exfalso. cbn [nth] in Hcj.
        apply Contains_nanos in Hcj; cbn [StartsAt EndsAt] in *;
          [lia | apply Hc | apply Hn | exact Ht].
      * f_equal. apply Hu; [lia | exact Hcj].
Qed.

(** X7. The periods [Cycles] generates tile the time from the anchor to
    the end of the last period: every instant in that range lies in
    exactly one period. *)
Theorem Cycles_partition
        (z : Zeit) (count : Z) (interval : BillingInterval) (t : Zeit) (d : Period) :
  stored z -> valid_time (instant t) -> 0 < count ->
  let ps := Cycles z count interval in
  nanos (instant z) <= nanos (instant t)
    < nanos (instant (EndsAt (last ps d))) ->
  exists i : nat,
    (i < List.length ps)%nat
    /\ Contains (nth i ps d) t = true
    /\ forall j : nat,
        (j < List.length ps)%nat -> Contains (nth j ps d) t = true -> j = i.
Proof.
  intros Hz Ht Hc. unfold Cycles.
  destruct (Z.leb_spec count 0); [lia|].
  destruct (Z.to_nat count) as [|n] eqn:E; [lia|].
  now apply Cycles_loop_partition.
Qed.

Lemma Cycles_partition_witness :
  let z := New (Date 2024 1 31 10 0 0 0 UTC) None in
  let t := New (Date 2024 3 2 10 0 0 0 UTC) None in
  exists i : nat,
    Contains (nth i (Cycles z 3 Monthly) (mkPeriod z z)) t = true
    /\ forall j : nat,
        (j < 3)%nat ->
        Contains (nth j (Cycles z 3 Monthly) (mkPeriod z z)) t = true -> j = i.
Proof.
  intros z t.
  assert (Hz : stored z)
    by (apply New_stored; unfold valid_time; vm_compute; split;
        [discriminate | reflexivity]).
  assert (Ht : valid_time (instant t))
    by (unfold valid_time; vm_compute; split; [discriminate | reflexivity]).
  destruct (Cycles_partition z 3 Monthly t (mkPeriod z z) Hz Ht ltac:(lia))
    as (i & _ & Hi & Hu).
  - vm_compute. split; [discriminate | reflexivity].
  - exists i. split; [exact Hi | exact Hu].
Defined.

(** *** Billing cycles: the day of the month *)










(** *** Calendar helpers: [DaysInMonth] and [DayOfMonth] *)







(** *** Calendar helpers: [StartOfMonth] and [EndOfMonth] *)








(** *** Durations: [raw], [Days] and [BusinessDays] *)

(** Within the range of a [Duration], [raw] is the absolute difference
    of the instants, in either order. *)
Lemma raw_abs_in_range (a b : Zeit) :
  valid_time (instant a) -> valid_time (instant b) ->
  Int64.min_int < nanos (instant b) - nanos (instant a) <= Int64.max_int ->
  raw (Until a b) = Z.abs (nanos (instant b) - nanos (instant a))
  /\ raw (Until b a) = Z.abs (nanos (instant b) - nanos (instant a)).
Proof.
  intros Ha Hb. unfold raw, Until. cbn [start end_].
  rewrite !Time_Sub_spec by assumption.
  set (delta := nanos (instant b) - nanos (instant a)).
  replace (nanos (instant a) - nanos (instant b)) with (- delta) by (unfold delta; lia).
  clearbody delta. intros H.
  assert (Hmin : Int64.min_int = - 2 ^ 63) by reflexivity.
  assert (Hmax : Int64.max_int = 2 ^ 63 - 1) by reflexivity.
  destruct (Z.leb_spec Int64.min_int delta); [|lia].
  destruct (Z.leb_spec delta Int64.max_int); [|lia].
  destruct (Z.leb_spec Int64.min_int (- delta)); [|lia].
  destruct (Z.leb_spec (- delta) Int64.max_int); [|lia].
  cbn [andb].
  destruct (Z.ltb_spec delta 0); destruct (Z.ltb_spec (- delta) 0);
    rewrite ?Int64Facts.neg_in_range by lia; lia.
Qed.

(** X15. [raw], behind [Raw] and the unit views, is the absolute
    difference of the two instants whenever the difference fits a
    [Duration], in either order.  Past that range the span in order
    saturates at the largest [Duration], while the reversed span returns
    the least [Duration], a negative value: its negation overflows. *)
Theorem raw_absolute_difference (a b : Zeit) :
  valid_time (instant a) -> valid_time (instant b) ->
  let delta := nanos (instant b) - nanos (instant a) in
  (Int64.min_int < delta <= Int64.max_int ->
   raw (Until a b) = Z.abs delta /\ raw (Until b a) = Z.abs delta)
  /\ (Int64.max_int < delta ->
      raw (Until a b) = maxDuration /\ raw (Until b a) = minDuration)
  /\ (delta = Int64.min_int -> raw (Until a b) = minDuration).
Proof.
  intros Ha Hb delta.
  assert (Hmin : Int64.min_int = - 2 ^ 63) by reflexivity.
  assert (Hmax : Int64.max_int = 2 ^ 63 - 1) by reflexivity.
  assert (Hneg : Int64.neg (- 2 ^ 63) = - 2 ^ 63) by reflexivity.
  split; [intros H; now apply raw_abs_in_range|].
  unfold raw, Until. cbn [start end_].
  rewrite !Time_Sub_spec by assumption. fold delta.
  replace (nanos (instant a) - nanos (instant b)) with (- delta) by (unfold delta; lia).
  replace (nanos (instant b) <? nanos (instant a)) with (delta <? 0)
    by (unfold delta; destruct (Z.ltb_spec (nanos (instant b)) (nanos (instant a)));
        destruct (Z.ltb_spec (nanos (instant b) - nanos (instant a)) 0); lia).
  replace (nanos (instant a) <? nanos (instant b)) with (- delta <? 0)
    by (unfold delta; destruct (Z.ltb_spec (nanos (instant a)) (nanos (instant b)));
        destruct (Z.ltb_spec (- (nanos (instant b) - nanos (instant a))) 0); lia).
  clearbody delta. unfold minDuration, maxDuration. rewrite Hmin, Hmax.
  split.
  - intros H.
    destruct (Z.leb_spec (- 2 ^ 63) delta); [|lia].
    destruct (Z.leb_spec delta (2 ^ 63 - 1)); [lia|].
    cbn [andb].
    destruct (Z.ltb_spec delta 0); [lia|].
    destruct (Z.ltb_spec (- delta) 0); [|lia].
    destruct (Z.ltb_spec (2 ^ 63 - 1) 0); [lia|].
    split; [reflexivity|].
    destruct (Z.leb_spec (- 2 ^ 63) (- delta)).
    + destruct (Z.leb_spec (- delta) (2 ^ 63 - 1)); [|lia]. cbn [andb].
      destruct (Z.ltb_spec (- delta) 0); [|lia].
      replace (- delta) with (- 2 ^ 63) by lia. exact Hneg.
    + cbn [andb]. exact Hneg.
  - intros ->.
    destruct (Z.leb_spec (- 2 ^ 63) (- 2 ^ 63)); [|lia].
    destruct (Z.leb_spec (- 2 ^ 63) (2 ^ 63 - 1)); [|lia].
    cbn [andb].
    destruct (Z.ltb_spec (- 2 ^ 63) 0); [exact Hneg | lia].
Qed.

Lemma raw_absolute_difference_witness :
  let a := New (Date 2024 1 15 14 30 0 0 UTC) None in
  let b := New (Date 2024 1 15 10 0 0 0 UTC) None in
  raw (Until a b) = 4 * Hour + 30 * Minute
  /\ raw (Until b a) = 4 * Hour + 30 * Minute.
Proof.
  intros a b.
  assert (Ha : valid_time (instant a))
    by (unfold valid_time; vm_compute; split; [discriminate | reflexivity]).
  assert (Hb : valid_time (instant b))
    by (unfold valid_time; vm_compute; split; [discriminate | reflexivity]).
  destruct (raw_absolute_difference a b Ha Hb) as (H & _).
  destruct H as [H1 H2].
  - vm_compute. split; [reflexivity | discriminate].
  - split; [rewrite H1 | rewrite H2]; vm_compute; reflexivity.
Defined.





(** *** Business days by whole weeks *)

Lemma count_business_days_shift n : forall t a i,
    count_business_days (shift t a) i n = count_business_days t (a + i) n.
Proof.
  induction n as [|n IH]; intros t a i; [reflexivity|].
  cbn [count_business_days]. rewrite shift_shift, IH.
  now rewrite Z.add_assoc.
Qed.

(** The business days a walk crosses, as a count over dates. *)
Lemma business_steps_forward k : forall t,
    business_steps_from t 1 k = count_business_days t 1 k.
Proof.
  induction k as [|k IH]; intros t; [reflexivity|].
  cbn [business_steps_from count_business_days].
  now rewrite IH, count_business_days_shift.
Qed.

Lemma business_steps_backward k : forall t,
    business_steps_from t (-1) k = count_business_days t (- Z.of_nat k) k.
Proof.
  induction k as [|k IH]; intros t; [reflexivity|].
  cbn [business_steps_from]. rewrite IH, count_business_days_shift.
  replace (S k) with (k + 1)%nat at 2 by lia.
  rewrite count_business_days_app. cbn [count_business_days].
  replace (- Z.of_nat (S k) + Z.of_nat k) with (-1) by lia.
  replace (-1 + - Z.of_nat k) with (- Z.of_nat (S k)) by lia. lia.
Qed.

(** One more step of the walk adds the day it lands on, if a business
    day. *)
Lemma business_steps_from_S t direction k :
  direction = 1 \/ direction = -1 ->
  business_steps_from t direction (S k)
  = business_steps_from t direction k
    + (if is_business_day (shift t (direction * Z.of_nat (S k))) then 1 else 0).
Proof.
  intros [-> | ->].
  - rewrite !business_steps_forward.
    replace (S k) with (k + 1)%nat at 1 by lia.
    rewrite count_business_days_app. cbn [count_business_days].
    replace (1 + Z.of_nat k) with (1 * Z.of_nat (S k)) by lia. lia.
  - rewrite !business_steps_backward.
    replace (S k) with (1 + k)%nat at 2 by lia.
    rewrite count_business_days_app. cbn [count_business_days].
    replace (- Z.of_nat (S k) + Z.of_nat 1) with (- Z.of_nat k) by lia.
    replace (-1 * Z.of_nat (S k)) with (- Z.of_nat (S k)) by lia. lia.
Qed.

Lemma business_steps_from_mono t direction a : forall b,
    direction = 1 \/ direction = -1 -> (a <= b)%nat ->
    business_steps_from t direction a <= business_steps_from t direction b.
Proof.
  induction b as [|b IH]; intros Hd Hab.
  - replace a with 0%nat by lia. lia.
  - destruct (Nat.eq_dec a (S b)) as [-> | Hne]; [lia|].
    rewrite business_steps_from_S by exact Hd.
    specialize (IH Hd ltac:(lia)).
    destruct (is_business_day _); lia.
Qed.

(** The walk can stop at one place only: two stops on business days
    that have crossed the same number of business days are the same. *)
Lemma business_steps_from_unique t direction k1 k2 :
  direction = 1 \/ direction = -1 ->
  business_steps_from t direction k1 = business_steps_from t direction k2 ->
  is_business_day (shift t (direction * Z.of_nat k1)) = true ->
  is_business_day (shift t (direction * Z.of_nat k2)) = true ->
  (0 < k1)%nat -> (0 < k2)%nat -> k1 = k2.
Proof.
  intros Hd Hc H1 H2 Hp1 Hp2.
  assert (Hlt : forall a b,
             (a < b)%nat -> (0 < b)%nat ->
             is_business_day (shift t (direction * Z.of_nat b)) = true ->
             business_steps_from t direction a < business_steps_from t direction b).
  { intros a b Hab Hb Hbd. destruct b as [|b]; [lia|].
    rewrite business_steps_from_S, Hbd by exact Hd.
    pose proof (business_steps_from_mono t direction a b Hd ltac:(lia)). lia. }
  destruct (Nat.lt_trichotomy k1 k2) as [H | [H | H]]; [|exact H|].
  - specialize (Hlt k1 k2 H Hp2 H2). lia.
  - specialize (Hlt k2 k1 H Hp1 H1). lia.
Qed.





(** *** The stored instant *)

Lemma AddBusinessDays_loop_utc fuel : forall direction days i current r,
    utc_time current ->
    AddBusinessDays_loop fuel direction days i current = Some r ->
    utc_time r.
Proof.
  induction fuel as [|fuel IH]; intros direction days i current r Hc Hr;
    cbn [AddBusinessDays_loop] in Hr; destruct (i <? days).
  - discriminate.
  - injection Hr as <-. exact Hc.
  - rewrite AddDate_days in Hr by exact Hc.
    assert (Hn : utc_time (mkTime (ext current + secondsPerDay * direction)
                                  (nsec current) UTC))
      by (split; [reflexivity | apply Hc]).
    destruct (negb _ && negb _); apply (IH _ _ _ _ _ Hn Hr).
  - injection Hr as <-. exact Hc.
Qed.

Lemma Date_nsec_zero y m d h mi s l : nsec (Date y m d h mi s 0 l) = 0.
Proof.
  unfold Date.
  assert (Hn : norm s 0 1000000000 = (s + 0 / 1000000000, 0 mod 1000000000))
    by (apply norm_div_mod; lia).
  rewrite Hn.
  destruct (norm y (m - 1) 12), (norm mi (s + 0 / 1000000000) 60) as [mi' s'],
    (norm h mi' 60) as [h' mi''], (norm d h' 24). reflexivity.
Qed.

Lemma Unix_valid Local s : valid_time (Unix Local s 0).
Proof. unfold valid_time. cbn. lia. Qed.

Lemma nsec_New t loc : nsec (instant (New t loc)) = nsec t.
Proof. reflexivity. Qed.

Lemma New_Date_stored y m d h mi s l loc : stored (New (Date y m d h mi s 0 l) loc).
Proof.
  split; [reflexivity|]. rewrite nsec_New, Date_nsec_zero. lia.
Qed.

Lemma month_bound_stored z r :
  StartOfMonth z = Some r \/ EndOfMonth z = Some r -> stored r.
Proof.
  unfold StartOfMonth, EndOfMonth.
  destruct (location z); intros [H | H]; try discriminate;
    injection H as <-; apply New_Date_stored.
Qed.

Lemma AddBusinessDays_stored z n r :
  stored z -> AddBusinessDays z n = Some r -> stored r.
Proof.
  intros Hz. unfold AddBusinessDays, AddBusinessDays_fuel.
  destruct (if n <? 0 then (-1, Int64.neg n) else (1, n)) as [direction days].
  destruct (AddBusinessDays_loop _ direction days 0 (instant z)) as [c|] eqn:E;
    [|discriminate].
  intros Hr. injection Hr as <-.
  pose proof (AddBusinessDays_loop_utc _ _ _ _ _ _ Hz E) as [_ Hv].
  split; [reflexivity | exact Hv].
Qed.

Lemma Scan_stored Local float_indef z src :
  snd (Scan Local float_indef z src) = None ->
  stored (fst (Scan Local float_indef z src)).
Proof.
  destruct src; try discriminate; intros _;
    (split; [reflexivity | apply Unix_valid]).
Qed.

Lemma Add_stored z d : stored z -> stored (Add z d).
Proof.
  intros [_ H]. split; [reflexivity|].
  apply (Time_Add_nanos (instant z) d H).
Qed.

(** X4. The invariant of the package: the instant of a Zeit is kept in
    UTC with its nanoseconds within the second.  [New] establishes it
    from any well-formed time, [FromDatabase] and a successful [Scan]
    from any integer, and [In], [Add], [AddDays], [AddBusinessDays],
    [StartOfMonth] and [EndOfMonth] keep it. *)
Theorem instants_are_stored_in_UTC :
  (forall t loc, valid_time t -> stored (New t loc))
  /\ (forall Local s loc, stored (FromDatabase Local s loc))
  /\ (forall Local float_indef z src,
         snd (Scan Local float_indef z src) = None ->
         stored (fst (Scan Local float_indef z src)))
  /\ (forall z loc, stored z -> stored (In z loc))
  /\ (forall z d, stored z -> stored (Add z d))
  /\ (forall z n, stored z -> stored (AddDays z n))
  /\ (forall z n r, stored z -> AddBusinessDays z n = Some r -> stored r)
  /\ (forall z r, StartOfMonth z = Some r \/ EndOfMonth z = Some r -> stored r).
Proof.
  split; [exact New_stored|].
  split; [intros; apply New_stored, Unix_valid|].
  split; [exact Scan_stored|].
  split; [intros z loc H; exact H|].
  split; [exact Add_stored|].
  split; [exact AddDays_stored|].
  split; [exact AddBusinessDays_stored | exact month_bound_stored].
Qed.

Lemma instants_are_stored_in_UTC_witness :
  let z := FromDatabase (FixedZone "Local" 7200) 1705312800
                        (Some (FixedZone "CET" 3600)) in
  stored z /\ stored (Add (AddDays z 3) (90 * Minute))
  /\ Time_Clock (instant (Add (AddDays z 3) (90 * Minute))) = (11, 30, 0).
Proof.
  intros z.
  destruct instants_are_stored_in_UTC as (_ & H2 & _ & _ & H5 & H6 & _).
  assert (Hz : stored z) by apply H2.
  split; [exact Hz|]. split; [apply H5, H6, Hz|].
  vm_compute. reflexivity.
Defined.

(** *** Billing cycles: months of a period and the closed form *)







Lemma Cycles_loop_daily n : forall (step : Z) interval current i d,
    stored current -> location current <> None ->
    (forall M, interval_days interval M = step) ->
    (i < n)%nat ->
    nth i (Cycles_loop n interval current) d
    = mkPeriod (AddDays current (step * Z.of_nat i))
               (AddDays current (step * (Z.of_nat i + 1))).
Proof.
  induction n as [|n IH]; intros step interval current i d Hc Hl Hs Hi; [lia|].
  assert (Hnext : Cycles_next interval current = AddDays current step)
    by (rewrite Cycles_next_AddDays, Hs by exact Hc; reflexivity).
  assert (H0 : AddDays current 0 = current).
  { rewrite AddDays_shift, shift_0 by apply Hc.
    destruct current as [t [l|]]; [reflexivity | contradiction]. }
  cbn [Cycles_loop]. destruct i as [|i].
  - cbn [nth]. rewrite Hnext. cbn [Z.of_nat].
    rewrite Z.mul_0_r, Z.add_0_l, Z.mul_1_r, H0. reflexivity.
  - cbn [nth]. rewrite Hnext.
    rewrite (IH step interval _ i d); try assumption;
      [| now apply AddDays_stored
       | rewrite (AddDays_shift current step Hc); cbn [location];
         now destruct (location current)
       | lia].
    rewrite !(AddDays_shift (AddDays current step))
      by now apply AddDays_stored.
    rewrite !(AddDays_shift current) by exact Hc.
    cbn [instant location]. rewrite !shift_shift.
    replace (step + step * Z.of_nat i) with (step * Z.of_nat (S i)) by lia.
    replace (step + step * (Z.of_nat i + 1)) with (step * (Z.of_nat (S i) + 1)) by lia.
    now destruct (location current).
Qed.

(** X14. Daily and Weekly cycles in closed form: period [i] runs from
    [i] to [i + 1] days (weeks) after the anchor, for an anchor with a
    zone. *)
Theorem Cycles_daily_weekly
        (z : Zeit) (count : Z) (interval : BillingInterval) (i : nat) (d : Period) :
  stored z -> location z <> None ->
  interval = Daily \/ interval = Weekly ->
  Z.of_nat i < count ->
  let step := if interval =? Weekly then 7 else 1 in
  nth i (Cycles z count interval) d
  = mkPeriod (AddDays z (step * Z.of_nat i)) (AddDays z (step * (Z.of_nat i + 1))).
Proof.
  intros Hz Hl Hi Hc step. unfold Cycles.
  destruct (Z.leb_spec count 0); [lia|].
  apply Cycles_loop_daily; try assumption; [|lia].
  intros M. subst step. destruct Hi as [-> | ->]; reflexivity.
Qed.

Lemma Cycles_daily_weekly_witness :
  let z := New (Date 2024 12 30 10 0 0 0 UTC) None in
  nth 2 (Cycles z 3 Weekly) (mkPeriod z z)
  = mkPeriod (AddDays z (7 * 2)) (AddDays z (7 * 3))
  /\ Time_Date (instant (AddDays z (7 * 3))) = (2025, 1, 20).
Proof.
  intros z.
  assert (Hz : stored z)
    by (apply New_stored; unfold valid_time; vm_compute; split;
        [discriminate | reflexivity]).
  split.
  - apply (Cycles_daily_weekly z 3 Weekly 2 (mkPeriod z z) Hz);
      [discriminate | auto | lia].
  - vm_compute. reflexivity.
Defined.

(** *** Business days there and back *)

(** [AddBusinessDays] as a move by whole days: the walk stops after [k]
    steps that have crossed [|n|] business days, on a business day
    unless [n] is zero. *)
Lemma AddBusinessDays_walk z n :
  stored z -> Int64.min_int < n <= Int64.max_int ->
  let direction := if n <? 0 then -1 else 1 in
  exists k : nat,
    AddBusinessDays z n
    = Some (mkZeit (shift (instant z) (direction * Z.of_nat k))
                   (zone_or_UTC (location z)))
    /\ business_steps_from (instant z) direction k = Z.abs n
    /\ (n = 0 -> k = 0%nat)
    /\ (n <> 0 ->
        (0 < k)%nat
        /\ is_business_day (shift (instant z) (direction * Z.of_nat k)) = true).
Proof.
  intros Hz Hn direction.
  assert (Hd : direction = 1 \/ direction = -1)
    by (unfold direction; destruct (n <? 0); auto).
  unfold AddBusinessDays, AddBusinessDays_fuel.
  assert (E : (if n <? 0 then (-1, Int64.neg n) else (1, n)) = (direction, Z.abs n)).
  { unfold direction. destruct (Z.ltb_spec n 0).
    - rewrite Int64Facts.neg_in_range by exact Hn. f_equal. lia.
    - f_equal. lia. }
  rewrite E. clear E.
  pose proof (gap_range direction (instant z)) as Hg.
  destruct (AddBusinessDays_loop_spec (Z.to_nat (3 * Z.abs n)) direction
              (Z.abs n) 0 (instant z) Hz Hd) as (k & Hk & Hc & H0 & Hl);
    [lia | lia |].
  exists k. rewrite Hk. split; [reflexivity|].
  split; [lia|]. split; [intros; apply H0; lia|].
  intros Hne. split; [|apply Hl; lia].
  destruct k; [cbn [business_steps_from] in Hc; lia | lia].
Qed.

(** The walk has one place to stop: a business day [k > 0] steps away
    with [|n|] business days crossed is where [AddBusinessDays] lands. *)
Lemma AddBusinessDays_lands z n k :
  stored z -> Int64.min_int < n <= Int64.max_int ->
  let direction := if n <? 0 then -1 else 1 in
  (0 < k)%nat ->
  business_steps_from (instant z) direction k = Z.abs n ->
  is_business_day (shift (instant z) (direction * Z.of_nat k)) = true ->
  AddBusinessDays z n
  = Some (mkZeit (shift (instant z) (direction * Z.of_nat k))
                 (zone_or_UTC (location z))).
Proof.
  intros Hz Hn direction Hk Hc Hb.
  assert (Hd : direction = 1 \/ direction = -1)
    by (unfold direction; destruct (n <? 0); auto).
  destruct (AddBusinessDays_walk z n Hz Hn) as (k' & Hr & Hc' & H0 & Hl).
  fold direction in Hr, Hc', Hl.
  assert (Hne : n <> 0).
  { intros ->. pose proof (H0 eq_refl) as ->. cbn [business_steps_from] in Hc'.
    destruct k as [|k]; [lia|].
    rewrite business_steps_from_S, Hb in Hc by exact Hd.
    pose proof (business_steps_from_mono (instant z) direction 0 k Hd ltac:(lia)) as Hm.
    cbn [business_steps_from] in Hm. lia. }
  destruct (Hl Hne) as [Hk' Hb'].
  rewrite Hr.
  assert (E : k' = k)
    by (apply (business_steps_from_unique (instant z) direction); auto; lia).
  now rewrite E.
Qed.

(** The business days of [k] dates, slid by one date. *)
Lemma count_business_days_slide t i k :
  count_business_days t (i + 1) k
  = count_business_days t i k
    + (if is_business_day (shift t (i + Z.of_nat k)) then 1 else 0)
    - (if is_business_day (shift t i) then 1 else 0).
Proof.
  pose proof (count_business_days_app k t i 1) as H1.
  cbn [count_business_days] in H1.
  replace (k + 1)%nat with (S k) in H1 by lia.
  cbn [count_business_days] in H1. lia.
Qed.

(** X18. [AddBusinessDays (-n)] undoes [AddBusinessDays n] from a stored
    instant on a business day: the walk back crosses the same business
    days and stops on the start.  (From a weekend it does not: Saturday
    plus one is Monday, and Monday minus one is Friday.) *)
Theorem AddBusinessDays_round_trip (z : Zeit) (n : Z) :
  stored z -> is_business_day (instant z) = true ->
  Int64.min_int < n <= Int64.max_int ->
  exists r,
    AddBusinessDays z n = Some r
    /\ AddBusinessDays r (- n) = Some (In z (location z)).
Proof.
  intros Hz Hb Hn.
  destruct (AddBusinessDays_walk z n Hz Hn) as (k & Hr & Hc & H0 & Hl).
  eexists. split; [exact Hr|].
  assert (HI : In z (location z) = mkZeit (instant z) (zone_or_UTC (location z)))
    by reflexivity.
  assert (Hzz : forall l, zone_or_UTC (zone_or_UTC l) = zone_or_UTC l)
    by (intros [l|]; reflexivity).
  destruct (Z.eq_dec n 0) as [-> | Hne].
  - rewrite (H0 eq_refl). cbn [Z.ltb Z.compare Z.of_nat Z.opp].
    rewrite Z.mul_0_r, shift_0 by apply Hz.
    destruct (AddBusinessDays_walk (mkZeit (instant z) (zone_or_UTC (location z))) 0)
      as (k' & Hr' & _ & H0' & _); [exact Hz | unfold Int64.min_int, Int64.max_int; lia |].
    rewrite Hr', (H0' eq_refl). cbn [Z.ltb Z.compare Z.of_nat instant location].
    rewrite Z.mul_0_r, shift_0, Hzz by apply Hz. now rewrite HI.
  - destruct (Hl Hne) as [Hk Hbk].
    set (direction := if n <? 0 then -1 else 1) in *.
    assert (Hdir : (if - n <? 0 then -1 else 1) = - direction)
      by (unfold direction; destruct (Z.ltb_spec n 0), (Z.ltb_spec (- n) 0); lia).
    set (r := mkZeit (shift (instant z) (direction * Z.of_nat k))
                     (zone_or_UTC (location z))).
    assert (Hrs : stored r) by (apply shift_utc, Hz).
    assert (Hback : shift (instant r) (- direction * Z.of_nat k) = instant z).
    { unfold r. cbn [instant]. rewrite shift_shift.
      replace (direction * Z.of_nat k + - direction * Z.of_nat k) with 0 by lia.
      apply shift_0, Hz. }
    assert (Hn' : Int64.min_int < - n <= Int64.max_int)
      by (unfold Int64.min_int, Int64.max_int in *; lia).
    rewrite (AddBusinessDays_lands r (- n) k Hrs Hn'); rewrite ?Hdir.
    + rewrite Hback. unfold r. cbn [location]. now rewrite Hzz, HI.
    + exact Hk.
    + rewrite Z.abs_opp, <- Hc. unfold r. cbn [instant].
      assert (Hd : direction = 1 \/ direction = -1)
        by (unfold direction; destruct (n <? 0); auto).
      destruct Hd as [E | E]; rewrite E in *; cbn [Z.opp].
      * rewrite business_steps_forward, business_steps_backward.
        rewrite count_business_days_shift.
        replace (1 * Z.of_nat k + - Z.of_nat k) with 0 by lia.
        pose proof (count_business_days_slide (instant z) 0 k) as Hs.
        change (0 + 1) with 1 in Hs. rewrite Hs.
        replace (0 + Z.of_nat k) with (1 * Z.of_nat k) by lia.
        rewrite Hbk, shift_0, Hb by apply Hz. lia.
      * change (- -1) with 1.
        rewrite business_steps_forward, business_steps_backward.
        rewrite count_business_days_shift.
        replace (-1 * Z.of_nat k + 1) with (- Z.of_nat k + 1) by lia.
        rewrite (count_business_days_slide (instant z) (- Z.of_nat k) k).
        replace (- Z.of_nat k + Z.of_nat k) with 0 by lia.
        assert (Hbk' : is_business_day (shift (instant z) (- Z.of_nat k)) = true)
          by (replace (- Z.of_nat k) with (-1 * Z.of_nat k) by lia; exact Hbk).
        rewrite Hbk', shift_0, Hb by apply Hz. lia.
    + rewrite Hback. exact Hb.
Qed.

Lemma AddBusinessDays_round_trip_witness :
  let z := New (Date 2024 1 19 10 0 0 0 UTC) None in
  exists r,
    AddBusinessDays z 3 = Some r
    /\ AddBusinessDays r (- 3) = Some (In z (location z)).
Proof.
  intros z.
  assert (Hz : stored z)
    by (apply New_stored; unfold valid_time; vm_compute; split;
        [discriminate | reflexivity]).
  apply (AddBusinessDays_round_trip z 3 Hz); [reflexivity|].
  unfold Int64.min_int, Int64.max_int. lia.
Defined.

(** From a Saturday the way back ends on the Friday before. *)
Example AddBusinessDays_no_round_trip_from_saturday :
  let z := New (Date 2024 1 20 10 0 0 0 UTC) None in
  AddBusinessDays z 1 = Some (New (Date 2024 1 22 10 0 0 0 UTC) None)
  /\ AddBusinessDays (New (Date 2024 1 22 10 0 0 0 UTC) None) (-1)
     = Some (New (Date 2024 1 19 10 0 0 0 UTC) None).
Proof. vm_compute. split; reflexivity. Qed.

(** *** Comparisons *)

(** X19. [Before], [Equal] and [After] order the instants: of two
    Zeits exactly one of the three holds, [After] is [Before] with the
    sides exchanged, [Equal] is symmetric and true of a Zeit and itself,
    and [Before] is transitive; the display zones play no part. *)
Theorem comparisons_order_instants (a b c : Zeit) :
  valid_time (instant a) -> valid_time (instant b) -> valid_time (instant c) ->
  (Before a b = true /\ Equal a b = false /\ After a b = false
   \/ Before a b = false /\ Equal a b = true /\ After a b = false
   \/ Before a b = false /\ Equal a b = false /\ After a b = true)
  /\ After a b = Before b a
  /\ Equal a b = Equal b a
  /\ Equal a a = true
  /\ (Before a b = true -> Before b c = true -> Before a c = true)
  /\ (Equal a b = true -> Before a c = Before b c /\ Before c a = Before c b).
Proof.
  intros Ha Hb Hc. unfold Before, Equal, After.
  rewrite !Time_After_Before.
  rewrite !Time_Before_nanos, !Time_Equal_nanos by assumption.
  destruct (Z.ltb_spec (nanos (instant a)) (nanos (instant b))),
    (Z.ltb_spec (nanos (instant b)) (nanos (instant a))),
    (Z.eqb_spec (nanos (instant a)) (nanos (instant b))),
    (Z.eqb_spec (nanos (instant b)) (nanos (instant a))); try lia;
    (split; [auto 6|]); (split; [reflexivity|]); (split; [reflexivity|]);
    (split; [apply Z.eqb_refl|]);
    (split; [intros H1 H2; try discriminate; apply Z.ltb_lt in H2;
             apply Z.ltb_lt; lia|]);
    intros H1; try discriminate;
    destruct (Z.ltb_spec (nanos (instant a)) (nanos (instant c))),
      (Z.ltb_spec (nanos (instant b)) (nanos (instant c))),
      (Z.ltb_spec (nanos (instant c)) (nanos (instant a))),
      (Z.ltb_spec (nanos (instant c)) (nanos (instant b))); try lia;
      split; reflexivity.
Qed.

Lemma comparisons_order_instants_witness :
  let a := New (Date 2024 1 15 10 0 0 0 UTC) (Some (FixedZone "CET" 3600)) in
  let b := New (Date 2024 1 15 5 0 0 0 (FixedZone "EST" (-18000))) None in
  let c := New (Date 2024 1 15 10 0 0 1 UTC) None in
  Equal a b = true /\ Before a c = Before b c.
Proof.
  intros a b c.
  assert (Ha : valid_time (instant a)) by (vm_compute; split; [discriminate | reflexivity]).
  assert (Hb : valid_time (instant b)) by (vm_compute; split; [discriminate | reflexivity]).
  assert (Hc : valid_time (instant c)) by (vm_compute; split; [discriminate | reflexivity]).
  destruct (comparisons_order_instants a b c Ha Hb Hc) as (_ & _ & _ & _ & _ & H).
  split; [reflexivity | apply H; reflexivity].
Defined.

End ZeitProperties.
